(** * Oneiromancer: the message-dispatch and response-fallback pipeline

    A shallow embedding of [main.py]: the four Telegram handlers, the shared
    generation-and-delivery routine and the start-up sequence, written in a
    small state-and-exception monad.  Every call that leaves the process
    (Telegram sends, the file download, the Groq transcription and completion
    endpoints) is answered by an environment that may depend on everything
    that happened before, and is recorded, with its outcome, in a trace. *)

From Stdlib Require Import ZArith QArith.
From Stdlib Require Import Ascii String.
From stdpp Require Import gmap strings list.

Open Scope string_scope.
Open Scope list_scope.

(** ** Python values used by the program *)

(** A [pathlib.Path], as the list of its components below the root. *)
Abbreviation Path := (list string).

(** [p / name] for a plain file name. *)
Definition path_div (p : Path) (name : string) : Path := p ++ [name].

(** [str(p)] on a POSIX system. *)
Definition path_str (p : Path) : string :=
  foldr (fun part acc => "/" +:+ part +:+ acc) EmptyString p.

(** Exceptions.  [except Exception] catches every class below [Exception];
    [asyncio.CancelledError], [KeyboardInterrupt] and [SystemExit] derive from
    [BaseException] only and pass through such a clause. *)
Inductive exn : Type :=
| KeyError (key : string)
| IndexError (msg : string)
| FileNotFoundError (p : Path)
| JSONDecodeError (msg : string)
| ValueError (msg : string)
| LibraryError (cls msg : string)
| BaseExceptionOnly (cls msg : string).

Definition is_Exception (e : exn) : bool :=
  match e with
  | BaseExceptionOnly _ _ => false
  | _ => true
  end.

(** [str(e)], as interpolated into the log lines. *)
Definition exn_str (e : exn) : string :=
  match e with
  | KeyError key => "'" +:+ key +:+ "'"
  | IndexError msg => msg
  | FileNotFoundError p =>
      "[Errno 2] No such file or directory: '" +:+ path_str p +:+ "'"
  | JSONDecodeError msg => msg
  | ValueError msg => msg
  | LibraryError _ msg => msg
  | BaseExceptionOnly _ msg => msg
  end.

Inductive result (A : Type) : Type :=
| Ok (a : A)
| Raise (e : exn).
Arguments Ok {A} a.
Arguments Raise {A} e.

(** One entry of the [messages] list handed to the completion endpoint. *)
Record chat_message := { role : string; content : string }.

(** The part of a [telegram.Update] the handlers read.  The handlers are
    registered behind [filters.VOICE] and [filters.TEXT], so the voice
    reference and the text body are present where they are read. *)
Record Update := {
  effective_chat_id : Z;
  message_text : string;
  message_voice_file_id : string
}.

(** ** Observable events *)

Inductive log_level : Type := WARNING | ERROR.

(** Each event is one call leaving the handler, with what came back. *)
Inductive event : Type :=
| EvReply (chat : Z) (text : string) (parse_mode : option string)
          (raised : option exn)
| EvChatAction (chat : Z) (action : string) (raised : option exn)
| EvGetFile (file_id : string) (r : result string)
| EvDownload (file : string) (custom_path : Path)
             (written : option (list Byte.byte)) (raised : option exn)
| EvOpen (p : Path) (mode : string)
| EvTranscribe (file_name : string) (data : list Byte.byte)
               (model language response_format : string) (r : result string)
| EvCompletion (messages : list chat_message) (model : string)
               (temperature : Q) (r : result (list (option string)))
| EvLog (lvl : log_level) (msg : string)
| EvRemove (p : Path).

(** The outside world: every answer may depend on the whole history. *)
Record Env := {
  reply_text_result :
    list event -> Z -> string -> option string -> option exn;
  send_chat_action_result :
    list event -> Z -> string -> option exn;
  get_file_result :
    list event -> string -> result string;
  (** what [download_to_drive] left on disk (nothing, a partial or the whole
      file) and whether it raised *)
  download_result :
    list event -> string -> Path -> option (list Byte.byte) * option exn;
  transcriptions_create_result :
    list event -> string -> list Byte.byte -> string -> string -> string ->
    result string;
  (** the [message.content] of each returned choice; [None] is Python's
      [None] *)
  completions_create_result :
    list event -> list chat_message -> string -> Q ->
    result (list (option string))
}.

(** ** The state-and-exception monad *)

Record world := {
  w_fs : gmap (list string) (list Byte.byte);
  w_trace : list event
}.

Definition M (A : Type) : Type := world -> result A * world.

Definition ret {A} (a : A) : M A := fun w => (Ok a, w).

Definition raise {A} (e : exn) : M A := fun w => (Raise e, w).

Definition bind {A B} (m : M A) (k : A -> M B) : M B :=
  fun w =>
    match m w with
    | (Ok a, w') => k a w'
    | (Raise e, w') => (Raise e, w')
    end.

Notation "'do' x <- c1 ; c2" := (bind c1 (fun x => c2))
  (at level 10, x name, c1 at level 100, c2 at level 200).
Notation "c1 ;; c2" := (bind c1 (fun _ => c2))
  (at level 100, c2 at level 200, right associativity).

(** [try: body / except Exception as e: handler e]. *)
Definition try_except {A} (body : M A) (handler : exn -> M A) : M A :=
  fun w =>
    match body w with
    | (Ok a, w') => (Ok a, w')
    | (Raise e, w') =>
        if is_Exception e then handler e w' else (Raise e, w')
    end.

(** [try: body / finally: fin]: [fin] always runs; an exception of [fin]
    replaces whatever [body] produced. *)
Definition try_finally {A} (body : M A) (fin : M unit) : M A :=
  fun w =>
    match body w with
    | (r, w') =>
        match fin w' with
        | (Ok _, w'') => (r, w'')
        | (Raise e, w'') => (Raise e, w'')
        end
    end.

Definition lift {A} (r : result A) : M A :=
  match r with
  | Ok a => ret a
  | Raise e => raise e
  end.

Definition emit (ev : event) : M unit :=
  fun w => (Ok tt, {| w_fs := w_fs w; w_trace := w_trace w ++ [ev] |}).

Definition raise_if (o : option exn) : M unit :=
  match o with
  | None => ret tt
  | Some e => raise e
  end.

(** [d[k]] on a dict. *)
Definition subscript {V} (d : gmap string V) (k : string) : M V :=
  match d !! k with
  | Some v => ret v
  | None => raise (KeyError k)
  end.

(** [f"{v}"] for an [Optional[str]]. *)
Definition py_str (v : option string) : string :=
  match v with
  | Some s => s
  | None => "None"
  end.

(** [choices[0].message.content]. *)
Definition first_choice_content (choices : list (option string))
  : M (option string) :=
  match choices with
  | c :: _ => ret c
  | [] => raise (IndexError "list index out of range")
  end.

(** ** The program *)

Section Program.

(** The outside world. *)
Variable env : Env.

(** [template.format(name=value)] of Python's [str]: the replacement-field
    grammar is the standard library's, not this program's, and is taken as
    given; it raises on a field it cannot fill. *)
Variable str_format : string -> string -> string -> result string.

(** Module-level constants: the loaded bundle and the source directory. *)
Variable TEXTS : gmap string (gmap string string).
Variable BASE_DIR : Path.

(** *** Calls that leave the process *)

(** [update.message.reply_text(text, parse_mode=...)]; an omitted
    [parse_mode] is [None]. *)
Definition reply_text (update : Update) (text : string)
           (parse_mode : option string) : M unit :=
  fun w =>
    let chat := effective_chat_id update in
    let r := reply_text_result env (w_trace w) chat text parse_mode in
    (emit (EvReply chat text parse_mode r) ;; raise_if r) w.

Definition send_chat_action (chat : Z) (action : string) : M unit :=
  fun w =>
    let r := send_chat_action_result env (w_trace w) chat action in
    (emit (EvChatAction chat action r) ;; raise_if r) w.

Definition get_file (file_id : string) : M string :=
  fun w =>
    let r := get_file_result env (w_trace w) file_id in
    (emit (EvGetFile file_id r) ;; lift r) w.

Definition write_file (p : Path) (data : option (list Byte.byte)) : M unit :=
  fun w =>
    match data with
    | Some d => (Ok tt, {| w_fs := <[p := d]> (w_fs w);
                           w_trace := w_trace w |})
    | None => (Ok tt, w)
    end.

Definition download_to_drive (file : string) (custom_path : Path) : M unit :=
  fun w =>
    let '(written, r) := download_result env (w_trace w) file custom_path in
    (emit (EvDownload file custom_path written r) ;;
     write_file custom_path written ;;
     raise_if r) w.

(** [open(p, "rb")] followed by [file.read()]. *)
Definition open_rb_read (p : Path) : M (list Byte.byte) :=
  fun w =>
    match w_fs w !! p with
    | Some data => (emit (EvOpen p "rb") ;; ret data) w
    | None => (emit (EvOpen p "rb") ;; raise (FileNotFoundError p)) w
    end.

Definition transcriptions_create (file_name : string)
           (data : list Byte.byte) (model language response_format : string)
  : M string :=
  fun w =>
    let r := transcriptions_create_result env (w_trace w) file_name data
               model language response_format in
    (emit (EvTranscribe file_name data model language response_format r) ;;
     lift r) w.

Definition completions_create (messages : list chat_message)
           (model : string) (temperature : Q)
  : M (list (option string)) :=
  fun w =>
    let r := completions_create_result env (w_trace w) messages model
               temperature in
    (emit (EvCompletion messages model temperature r) ;; lift r) w.

Definition logger (lvl : log_level) (msg : string) : M unit :=
  emit (EvLog lvl msg).

(** [p.exists()]. *)
Definition path_exists (p : Path) : M bool :=
  fun w => (Ok (bool_decide (is_Some (w_fs w !! p))), w).

(** [os.remove(p)]. *)
Definition os_remove (p : Path) : M unit :=
  fun w =>
    match w_fs w !! p with
    | Some _ =>
        (Ok tt, {| w_fs := delete p (w_fs w);
                   w_trace := w_trace w ++ [EvRemove p] |})
    | None => (Raise (FileNotFoundError p), w)
    end.

(** [TEXTS[section][key]]. *)
Definition texts_get (section key : string) : M string :=
  do d <- subscript TEXTS section;
  subscript d key.

(** *** Core logic *)

(** Lines 72-92: the prompt, the completion call and the footer. *)
Definition build_full_response (user_text : string) : M string :=
  do template <- texts_get "prompts" "user_input_wrapper";
  do wrapped_input <- lift (str_format template "user_input" user_text);
  do system_prompt <- texts_get "prompts" "system_prompt";
  do choices <-
    completions_create
      [ {| role := "system"; content := system_prompt |};
        {| role := "user"; content := wrapped_input |} ]
      "llama-3.3-70b-versatile" (Qmake 7 10);
  do analysis <- first_choice_content choices;
  do footer <- texts_get "messages" "footer_disclaimer";
  ret (py_str analysis +:+ footer).

(** Lines 95-99: the safe sending block. *)
Definition safe_send (full_response : string) (update : Update) : M unit :=
  try_except
    (reply_text update full_response (Some "Markdown"))
    (fun e =>
       logger WARNING
         ("Markdown parsing failed, falling back to plain text. Error: "
            +:+ exn_str e) ;;
       reply_text update full_response None).

(** Lines 101-103: the outer [except] clause. *)
Definition on_generation_error (e : exn) (update : Update) : M unit :=
  logger ERROR ("LLM Generation Error: " +:+ exn_str e) ;;
  do generic_error <- texts_get "errors" "generic_error";
  reply_text update generic_error None.

Definition generate_jungian_response (user_text : string) (update : Update)
  : M unit :=
  try_except
    (do full_response <- build_full_response user_text;
     safe_send full_response update)
    (fun e => on_generation_error e update).

(** *** Telegram handlers *)

Definition start_command (update : Update) : M unit :=
  do welcome <- texts_get "messages" "welcome";
  reply_text update welcome (Some "Markdown").

Definition privacy_command (update : Update) : M unit :=
  do privacy <- texts_get "messages" "privacy";
  reply_text update privacy (Some "Markdown").

Definition temp_ogg_path : Path := path_div BASE_DIR "temp_voice.ogg".

(** Lines 129-146: download, transcription and the feedback reply. *)
Definition download_and_transcribe (update : Update) : M string :=
  do voice_file <- get_file (message_voice_file_id update);
  download_to_drive voice_file temp_ogg_path ;;
  do data <- open_rb_read temp_ogg_path;
  do transcribed_text <-
    transcriptions_create (path_str temp_ogg_path) data
      "whisper-large-v3" "it" "json";
  do template <- texts_get "messages" "transcription_done";
  do feedback_msg <- lift (str_format template "text" transcribed_text);
  reply_text update feedback_msg (Some "Markdown") ;;
  ret transcribed_text.

(** Lines 155-158: the [finally] clause. *)
Definition cleanup : M unit :=
  do present <- path_exists temp_ogg_path;
  if present then os_remove temp_ogg_path else ret tt.

(** Lines 151-153: the [except] clause of the voice handler. *)
Definition on_audio_error (e : exn) (update : Update) : M unit :=
  logger ERROR ("Audio Processing Error: " +:+ exn_str e) ;;
  do audio_error <- texts_get "errors" "audio_error";
  reply_text update audio_error None.

Definition handle_voice_message (update : Update) : M unit :=
  do processing_audio <- texts_get "messages" "processing_audio";
  reply_text update processing_audio None ;;
  try_finally
    (try_except
       (do transcribed_text <- download_and_transcribe update;
        generate_jungian_response transcribed_text update)
       (fun e => on_audio_error e update))
    cleanup.

Definition handle_text_message (update : Update) : M unit :=
  send_chat_action (effective_chat_id update) "typing" ;;
  let user_input := message_text update in
  generate_jungian_response user_input update.

(** *** Start-up *)

Definition RESOURCES_PATH : Path :=
  path_div (path_div BASE_DIR "resources") "texts.json".

(** What [open(RESOURCES_PATH)] and [json.load] make of the resource file:
    it is absent, it is not JSON, opening or reading it raises another
    exception (a [PermissionError], a [UnicodeDecodeError] for a file that is
    not UTF-8), or it decodes.  Of the values [json.load] can return the
    model has the sections of strings, the shape every subscript of the
    program assumes. *)
Inductive resource_file : Type :=
| ResourceMissing
| ResourceMalformed (msg : string)
| ResourceUnreadable (e : exn)
| ResourceJson (j : gmap string (gmap string string)).

Definition open_json_load (res : resource_file)
  : M (gmap string (gmap string string)) :=
  match res with
  | ResourceMissing => raise (FileNotFoundError RESOURCES_PATH)
  | ResourceMalformed msg => raise (JSONDecodeError msg)
  | ResourceUnreadable e => raise e
  | ResourceJson j => ret j
  end.

Definition load_texts (res : resource_file)
  : M (gmap string (gmap string string)) :=
  fun w =>
    match open_json_load res w with
    | (Raise (FileNotFoundError p), w') =>
        (logger ERROR
           ("Resource file not found at " +:+ path_str RESOURCES_PATH) ;;
         raise (FileNotFoundError p)) w'
    | (Raise (JSONDecodeError msg), w') =>
        (logger ERROR "Error decoding the JSON resource file." ;;
         raise (JSONDecodeError msg)) w'
    | r => r
    end.

(** [not v] for an [Optional[str]] read from the environment. *)
Definition py_not (v : option string) : bool :=
  match v with
  | None => true
  | Some s => bool_decide (s = EmptyString)
  end.

(** Lines 27-61, the module body up to [TEXTS = load_texts()]; the value it
    returns is the bundle every handler reads afterwards. *)
Definition module_init (TELEGRAM_TOKEN GROQ_API_KEY : option string)
           (res : resource_file) : M (gmap string (gmap string string)) :=
  if py_not TELEGRAM_TOKEN || py_not GROQ_API_KEY
  then raise (ValueError "Missing API keys in .env file.")
  else load_texts res.

End Program.

(** ** Runs *)

(** The events a computation adds to the trace. *)
Definition emitted {A} (m : M A) (w : world) : list event :=
  drop (length (w_trace w)) (w_trace (m w).2).

(** The replies that reached the user. *)
Definition delivered (evs : list event) : list string :=
  omap (fun ev =>
          match ev with
          | EvReply _ text _ None => Some text
          | _ => None
          end) evs.

Definition is_completion (ev : event) : bool :=
  match ev with
  | EvCompletion _ _ _ _ => true
  | _ => false
  end.

(** The path an event touches, if any. *)
Definition event_path (ev : event) : option Path :=
  match ev with
  | EvDownload _ p _ _ => Some p
  | EvOpen p _ => Some p
  | EvRemove p => Some p
  | _ => None
  end.

(** The paths touched by a list of events. *)
Definition paths_used (evs : list event) : list Path := omap event_path evs.

(** [TEXTS[section][key]] as a plain lookup. *)
Definition bundle_lookup (TEXTS : gmap string (gmap string string))
           (section key : string) : option string :=
  d ← TEXTS !! section; d !! key.

(** The key a failing [TEXTS[section][key]] reports. *)
Definition missing_key (TEXTS : gmap string (gmap string string))
           (section key : string) : string :=
  match TEXTS !! section with
  | None => section
  | Some _ => key
  end.

(** What a call that returns nothing hands back to its caller. *)
Definition opt_result (raised : option exn) : result unit :=
  match raised with
  | None => Ok tt
  | Some e => Raise e
  end.

(** The world [w] after the events [evs], the disk untouched. *)
Definition log_to (w : world) (evs : list event) : world :=
  {| w_fs := w_fs w; w_trace := w_trace w ++ evs |}.

(** The steps of the voice handler, as they show in the trace. *)
Definition notice_delivered (notice : string) (ev : event) : bool :=
  match ev with
  | EvReply _ text None None => bool_decide (text = notice)
  | _ => false
  end.

Definition is_download (ev : event) : bool :=
  match ev with
  | EvDownload _ _ _ _ => true
  | _ => false
  end.

Definition download_done (ev : event) : bool :=
  match ev with
  | EvDownload _ _ _ None => true
  | _ => false
  end.

Definition is_transcription (ev : event) : bool :=
  match ev with
  | EvTranscribe _ _ _ _ _ _ => true
  | _ => false
  end.

Definition transcription_done (ev : event) : bool :=
  match ev with
  | EvTranscribe _ _ _ _ _ (Ok _) => true
  | _ => false
  end.

Definition is_rich_reply (ev : event) : bool :=
  match ev with
  | EvReply _ _ (Some _) _ => true
  | _ => false
  end.

(** In [evs], every event satisfying [Q] comes after one satisfying [P]. *)
Definition precedes (P Q : event -> bool) (evs : list event) : Prop :=
  forall l1 e l2, evs = l1 ++ e :: l2 -> Q e = true ->
                  Exists (fun e' => P e' = true) l1.

(** The text of a rich-mode reply that follows a completion call: the first
    choice the call returned, with the footer of the bundle appended. *)
Definition footed_answer (TEXTS : gmap string (gmap string string))
           (r : result (list (option string))) (text : string) : Prop :=
  exists c others footer,
    r = Ok (c :: others) /\
    bundle_lookup TEXTS "messages" "footer_disclaimer" = Some footer /\
    text = py_str c +:+ footer.

(** In [evs], every rich-mode reply sent after a completion call carries
    that call's answer with the footer appended. *)
Definition rich_after_completion (TEXTS : gmap string (gmap string string))
           (evs : list event) : Prop :=
  forall l1 messages model temperature r l2 chat text mode raised l3,
    evs = l1 ++ EvCompletion messages model temperature r
             :: l2 ++ EvReply chat text (Some mode) raised :: l3 ->
    footed_answer TEXTS r text.

(** A computation only ever appends to the trace. *)
Class Grows {A} (m : M A) : Prop :=
  grows : forall w, w_trace w `prefix_of` w_trace (m w).2.

(** Every event a computation emits satisfies [P]. *)
Definition emits_only {A} (P : event -> Prop) (m : M A) : Prop :=
  forall w, Forall P (emitted m w).

(** ** Concrete inputs *)

(** [str.format] on the fragment the examples need: literal text, doubled
    braces and fields that are plain keyword names. *)
Fixpoint format_fields (template : string) (field : option string)
         (name value : string) : result string :=
  let prepend (s : string) (r : result string) :=
    match r with
    | Ok t => Ok (s +:+ t)
    | Raise e => Raise e
    end in
  match template, field with
  | EmptyString, None => Ok EmptyString
  | EmptyString, Some _ =>
      Raise (ValueError "expected '}' before end of string")
  | String c rest, None =>
      if Ascii.eqb c "{"%char then
        match rest with
        | String c' rest' =>
            if Ascii.eqb c' "{"%char
            then prepend "{" (format_fields rest' None name value)
            else format_fields rest (Some EmptyString) name value
        | EmptyString => Raise (ValueError "Single '{' encountered in format string")
        end
      else if Ascii.eqb c "}"%char then
        match rest with
        | String c' rest' =>
            if Ascii.eqb c' "}"%char
            then prepend "}" (format_fields rest' None name value)
            else Raise (ValueError "Single '}' encountered in format string")
        | EmptyString => Raise (ValueError "Single '}' encountered in format string")
        end
      else prepend (String c EmptyString) (format_fields rest None name value)
  | String c rest, Some acc =>
      if Ascii.eqb c "}"%char then
        if String.eqb acc name
        then prepend value (format_fields rest None name value)
        else Raise (KeyError acc)
      else format_fields rest (Some (acc +:+ String c EmptyString)) name value
  end.

Definition format_plain (template name value : string) : result string :=
  format_fields template None name value.

Definition sample_texts : gmap string (gmap string string) :=
  list_to_map
    [ ("prompts",
       list_to_map
         [ ("system_prompt", "Sei un analista junghiano.");
           ("user_input_wrapper", "Sogno: {user_input}") ]);
      ("messages",
       list_to_map
         [ ("welcome", "*Benvenuto*");
           ("privacy", "_Privacy_");
           ("processing_audio", "Ascolto...");
           ("transcription_done", "Ho capito: _{text}_");
           ("footer_disclaimer", " [non sostituisce un terapeuta]") ]);
      ("errors",
       list_to_map
         [ ("generic_error", "Errore.");
           ("audio_error", "Audio non compreso.") ]) ].

Definition sample_dir : Path := ["srv"; "bot"].

Definition sample_update : Update :=
  {| effective_chat_id := 42;
     message_text := "Ho fatto un sogno strano";
     message_voice_file_id := "voice-1" |}.

Definition sample_audio : list Byte.byte := [Byte.x4f; Byte.x67; Byte.x67; Byte.x53].

Definition empty_world : world := {| w_fs := ∅; w_trace := [] |}.

(** A world in which an earlier run left the audio file behind. *)
Definition stale_world : world :=
  {| w_fs := {[ path_div sample_dir "temp_voice.ogg" := sample_audio ]};
     w_trace := [] |}.

Definition telegram_down : exn := LibraryError "NetworkError" "timed out".
Definition bad_markdown : exn :=
  LibraryError "BadRequest" "Can't parse entities".

(** Every call succeeds. *)
Definition env_ok : Env :=
  {| reply_text_result := fun _ _ _ _ => None;
     send_chat_action_result := fun _ _ _ => None;
     get_file_result := fun _ _ => Ok "voice/file_1.oga";
     download_result := fun _ _ _ => (Some sample_audio, None);
     transcriptions_create_result := fun _ _ _ _ _ _ => Ok "ho sognato il mare";
     completions_create_result := fun _ _ _ _ => Ok [Some "Il mare e' l'inconscio."] |}.

(** Telegram rejects every Markdown send and accepts plain ones. *)
Definition env_markdown_rejected : Env :=
  {| reply_text_result := fun _ _ _ mode =>
       match mode with Some _ => Some bad_markdown | None => None end;
     send_chat_action_result := send_chat_action_result env_ok;
     get_file_result := get_file_result env_ok;
     download_result := download_result env_ok;
     transcriptions_create_result := transcriptions_create_result env_ok;
     completions_create_result := completions_create_result env_ok |}.

(** What a run on [sample_update]'s text asks of the completion endpoint and
    what it then has to deliver. *)
Definition sample_call : event :=
  EvCompletion
    [ {| role := "system"; content := "Sei un analista junghiano." |};
      {| role := "user"; content := "Sogno: Ho fatto un sogno strano" |} ]
    "llama-3.3-70b-versatile" (Qmake 7 10)
    (Ok [Some "Il mare e' l'inconscio."]).

Definition sample_full : string :=
  "Il mare e' l'inconscio. [non sostituisce un terapeuta]".

Definition sample_warning : event :=
  EvLog WARNING
    "Markdown parsing failed, falling back to plain text. Error: Can't parse entities".

(** The typing indicator cannot be sent. *)
Definition env_typing_fails : Env :=
  {| reply_text_result := reply_text_result env_ok;
     send_chat_action_result := fun _ _ _ => Some telegram_down;
     get_file_result := get_file_result env_ok;
     download_result := download_result env_ok;
     transcriptions_create_result := transcriptions_create_result env_ok;
     completions_create_result := completions_create_result env_ok |}.

(** Markdown sends are rejected, and of the plain sends only the generic
    error notice gets through. *)
Definition env_only_error_notice : Env :=
  {| reply_text_result := fun _ _ text mode =>
       match mode with
       | Some _ => Some bad_markdown
       | None =>
           if bool_decide (text = "Errore.") then None else Some telegram_down
       end;
     send_chat_action_result := send_chat_action_result env_ok;
     get_file_result := get_file_result env_ok;
     download_result := download_result env_ok;
     transcriptions_create_result := transcriptions_create_result env_ok;
     completions_create_result := completions_create_result env_ok |}.

(** The download breaks off and leaves half a file behind. *)
Definition env_download_fails : Env :=
  {| reply_text_result := reply_text_result env_ok;
     send_chat_action_result := send_chat_action_result env_ok;
     get_file_result := get_file_result env_ok;
     download_result := fun _ _ _ =>
       (Some [Byte.x4f; Byte.x67], Some telegram_down);
     transcriptions_create_result := transcriptions_create_result env_ok;
     completions_create_result := completions_create_result env_ok |}.

(** The feedback reply of the voice handler cannot be sent. *)
Definition env_telegram_down : Env :=
  {| reply_text_result := fun _ _ _ _ => Some telegram_down;
     send_chat_action_result := send_chat_action_result env_ok;
     get_file_result := get_file_result env_ok;
     download_result := download_result env_ok;
     transcriptions_create_result := transcriptions_create_result env_ok;
     completions_create_result := completions_create_result env_ok |}.

(** ** Further notions about runs *)

(** How many events of a kind a list holds. *)
Definition count_events (kind : event -> bool) (evs : list event) : nat :=
  length (List.filter kind evs).

(** A computation leaves the disk as it found it. *)
Class KeepsDisk {A} (m : M A) : Prop :=
  keeps_disk : forall w, w_fs (m w).2 = w_fs w.

(** A computation changes no file but, possibly, [p]. *)
Class OnlyTouches (p : Path) {A} (m : M A) : Prop :=
  only_touches : forall w q, q <> p -> w_fs (m w).2 !! q = w_fs w !! q.

(** A request to one of the two Groq endpoints as the program writes it: a
    completion request holds a system message and a user message and nothing
    else, for the Llama model at temperature 0.7; a transcription request
    names the temporary file, the Whisper model, Italian and JSON. *)
Definition request_as_written (BASE_DIR : Path) (ev : event) : Prop :=
  match ev with
  | EvCompletion messages model temperature _ =>
      (exists system_prompt user_content,
          messages = [ {| role := "system"; content := system_prompt |};
                       {| role := "user"; content := user_content |} ]) /\
      model = "llama-3.3-70b-versatile" /\
      temperature = Qmake 7 10
  | EvTranscribe file_name _ model language response_format _ =>
      file_name = path_str (temp_ogg_path BASE_DIR) /\
      model = "whisper-large-v3" /\
      language = "it" /\
      response_format = "json"
  | _ => True
  end.

(** ** Further concrete inputs *)

Definition groq_down : exn := LibraryError "APIConnectionError" "Connection error.".

Definition cancelled : exn := BaseExceptionOnly "CancelledError" "cancelled".

(** The completion endpoint cannot be reached. *)
Definition env_completion_down : Env :=
  {| reply_text_result := reply_text_result env_ok;
     send_chat_action_result := send_chat_action_result env_ok;
     get_file_result := get_file_result env_ok;
     download_result := download_result env_ok;
     transcriptions_create_result := transcriptions_create_result env_ok;
     completions_create_result := fun _ _ _ _ => Raise groq_down |}.

(** The completion endpoint answers without a choice. *)
Definition env_no_choices : Env :=
  {| reply_text_result := reply_text_result env_ok;
     send_chat_action_result := send_chat_action_result env_ok;
     get_file_result := get_file_result env_ok;
     download_result := download_result env_ok;
     transcriptions_create_result := transcriptions_create_result env_ok;
     completions_create_result := fun _ _ _ _ => Ok [] |}.

(** The completion endpoint answers with a choice that has no content. *)
Definition env_null_content : Env :=
  {| reply_text_result := reply_text_result env_ok;
     send_chat_action_result := send_chat_action_result env_ok;
     get_file_result := get_file_result env_ok;
     download_result := download_result env_ok;
     transcriptions_create_result := transcriptions_create_result env_ok;
     completions_create_result := fun _ _ _ _ => Ok [None] |}.

(** The task is cancelled while a Markdown send or a download is awaited. *)
Definition env_cancelled : Env :=
  {| reply_text_result := fun _ _ _ mode =>
       match mode with Some _ => Some cancelled | None => None end;
     send_chat_action_result := send_chat_action_result env_ok;
     get_file_result := get_file_result env_ok;
     download_result := fun _ _ _ => (None, Some cancelled);
     transcriptions_create_result := transcriptions_create_result env_ok;
     completions_create_result := completions_create_result env_ok |}.

(** The completion endpoint cannot be reached, and the generic error notice
    cannot be sent either. *)
Definition env_generation_unreachable : Env :=
  {| reply_text_result := fun _ _ text _ =>
       if bool_decide (text = "Errore.") then Some telegram_down else None;
     send_chat_action_result := send_chat_action_result env_ok;
     get_file_result := get_file_result env_ok;
     download_result := download_result env_ok;
     transcriptions_create_result := transcriptions_create_result env_ok;
     completions_create_result := fun _ _ _ _ => Raise groq_down |}.

(** Bundles that lack a section or a key. *)
Definition texts_without_prompts : gmap string (gmap string string) :=
  delete "prompts" sample_texts.

Definition texts_without_errors : gmap string (gmap string string) :=
  delete "errors" sample_texts.

Definition texts_without_footer : gmap string (gmap string string) :=
  alter (delete "footer_disclaimer") "messages" sample_texts.

(** The request of a run on [sample_update]'s text, with another answer. *)
Definition sample_call_with (r : result (list (option string))) : event :=
  EvCompletion
    [ {| role := "system"; content := "Sei un analista junghiano." |};
      {| role := "user"; content := "Sogno: Ho fatto un sogno strano" |} ]
    "llama-3.3-70b-versatile" (Qmake 7 10) r.

(** The worlds a voice update on [sample_update] goes through: after the
    processing notice, after the transcription, and after the generation
    routine has answered or has failed to. *)
Definition noticed_world : world :=
  log_to empty_world [EvReply 42 "Ascolto..." None None].

Definition heard_world : world :=
  Eval vm_compute in
    (download_and_transcribe env_ok format_plain sample_texts sample_dir
       sample_update noticed_world).2.

Definition answered_world : world :=
  Eval vm_compute in
    (generate_jungian_response env_ok format_plain sample_texts
       "ho sognato il mare" sample_update heard_world).2.

Definition unanswered_world : world :=
  Eval vm_compute in
    (generate_jungian_response env_generation_unreachable format_plain
       sample_texts "ho sognato il mare" sample_update heard_world).2.

(** ** The monad and the trace *)

Lemma emitted_app {A} (m : M A) w evs :
  w_trace (m w).2 = w_trace w ++ evs -> emitted m w = evs.
Proof.
  intros H. unfold emitted. rewrite H. apply drop_app_length.
Qed.

Lemma trace_emitted {A} (m : M A) `{!Grows m} w :
  w_trace (m w).2 = w_trace w ++ emitted m w.
Proof.
  destruct (grows w) as [evs H]. by rewrite (emitted_app _ _ _ H).
Qed.

#[export] Instance ret_grows {A} (a : A) : Grows (ret a).
Proof. intros w. by exists []; rewrite app_nil_r. Qed.

#[export] Instance raise_grows {A} e : Grows (@raise A e).
Proof. intros w. by exists []; rewrite app_nil_r. Qed.

#[export] Instance lift_grows {A} (r : result A) : Grows (lift r).
Proof. destruct r; apply _. Qed.

#[export] Instance raise_if_grows o : Grows (raise_if o).
Proof. destruct o; apply _. Qed.

#[export] Instance emit_grows ev : Grows (emit ev).
Proof. intros w. by exists [ev]. Qed.

#[export] Instance subscript_grows {V} (d : gmap string V) k :
  Grows (subscript d k).
Proof. unfold subscript. destruct (d !! k); apply _. Qed.

#[export] Instance first_choice_content_grows choices :
  Grows (first_choice_content choices).
Proof. destruct choices; apply _. Qed.

#[export] Instance bind_grows {A B} (m : M A) (k : A -> M B) :
  Grows m -> (forall a, Grows (k a)) -> Grows (bind m k).
Proof.
  intros Hm Hk w. unfold bind.
  specialize (Hm w). destruct (m w) as [[a|e] w1]; simpl in *.
  - etrans; [exact Hm | apply Hk].
  - exact Hm.
Qed.

#[export] Instance try_except_grows {A} (body : M A) handler :
  Grows body -> (forall e, Grows (handler e)) ->
  Grows (try_except body handler).
Proof.
  intros Hb Hh w. unfold try_except.
  specialize (Hb w). destruct (body w) as [[a|e] w1]; simpl in *.
  - exact Hb.
  - destruct (is_Exception e); simpl; [|exact Hb].
    etrans; [exact Hb | apply Hh].
Qed.

#[export] Instance try_finally_grows {A} (body : M A) fin :
  Grows body -> Grows fin -> Grows (try_finally body fin).
Proof.
  intros Hb Hf w. unfold try_finally.
  specialize (Hb w). destruct (body w) as [r w1]; simpl in *.
  specialize (Hf w1). destruct (fin w1) as [[[]|e] w2]; simpl in *;
    (etrans; [exact Hb | exact Hf]).
Qed.

Lemma emitted_bind {A B} (m : M A) (k : A -> M B)
      `{!Grows m} `{!forall a, Grows (k a)} w :
  emitted (bind m k) w =
  emitted m w ++
    match (m w).1 with
    | Ok a => emitted (k a) (m w).2
    | Raise _ => []
    end.
Proof.
  apply emitted_app. unfold bind.
  pose proof (trace_emitted m w) as Hm.
  destruct (m w) as [[a|e] w1]; simpl in *.
  - by rewrite (trace_emitted (k a) w1), Hm, app_assoc.
  - by rewrite app_nil_r.
Qed.

Lemma emitted_try_except {A} (body : M A) handler
      `{!Grows body} `{!forall e, Grows (handler e)} w :
  emitted (try_except body handler) w =
  emitted body w ++
    match (body w).1 with
    | Ok _ => []
    | Raise e => if is_Exception e then emitted (handler e) (body w).2 else []
    end.
Proof.
  apply emitted_app. unfold try_except.
  pose proof (trace_emitted body w) as Hb.
  destruct (body w) as [[a|e] w1]; simpl in *.
  - by rewrite app_nil_r.
  - destruct (is_Exception e); simpl.
    + by rewrite (trace_emitted (handler e) w1), Hb, app_assoc.
    + by rewrite app_nil_r.
Qed.

Lemma emitted_try_finally {A} (body : M A) fin
      `{!Grows body} `{!Grows fin} w :
  emitted (try_finally body fin) w = emitted body w ++ emitted fin (body w).2.
Proof.
  apply emitted_app. unfold try_finally.
  pose proof (trace_emitted body w) as Hb.
  destruct (body w) as [r w1]; simpl in *.
  pose proof (trace_emitted fin w1) as Hf.
  destruct (fin w1) as [[[]|e] w2]; simpl in *;
    by rewrite Hf, Hb, app_assoc.
Qed.

(** *** Properties of all emitted events *)

Lemma emits_only_silent {A} P (m : M A) :
  (forall w, w_trace (m w).2 = w_trace w) -> emits_only P m.
Proof.
  intros H w. rewrite (emitted_app m w []); [constructor|].
  by rewrite H, app_nil_r.
Qed.

Lemma emits_only_ret {A} P (a : A) : emits_only P (ret a).
Proof. by apply emits_only_silent. Qed.

Lemma emits_only_raise {A} P e : emits_only P (@raise A e).
Proof. by apply emits_only_silent. Qed.

Lemma emits_only_lift {A} P (r : result A) : emits_only P (lift r).
Proof. apply emits_only_silent. by destruct r. Qed.

Lemma emits_only_raise_if P o : emits_only P (raise_if o).
Proof. apply emits_only_silent. by destruct o. Qed.

Lemma emits_only_subscript {V} P (d : gmap string V) k :
  emits_only P (subscript d k).
Proof. apply emits_only_silent. intros w. unfold subscript. by destruct (d !! k). Qed.

Lemma emits_only_first_choice_content P choices :
  emits_only P (first_choice_content choices).
Proof. apply emits_only_silent. by destruct choices. Qed.

Lemma emits_only_emit (P : event -> Prop) ev : P ev -> emits_only P (emit ev).
Proof.
  intros H w. rewrite (emitted_app (emit ev) w [ev]) by done.
  by constructor.
Qed.

Lemma emits_only_bind {A B} P (m : M A) (k : A -> M B)
      `{!Grows m} `{!forall a, Grows (k a)} :
  emits_only P m -> (forall a, emits_only P (k a)) -> emits_only P (bind m k).
Proof.
  intros Hm Hk w. rewrite emitted_bind by apply _.
  apply Forall_app. split; [apply Hm|].
  destruct (m w).1; [apply Hk|constructor].
Qed.

Lemma emits_only_try_except {A} P (body : M A) handler
      `{!Grows body} `{!forall e, Grows (handler e)} :
  emits_only P body -> (forall e, emits_only P (handler e)) ->
  emits_only P (try_except body handler).
Proof.
  intros Hb Hh w. rewrite emitted_try_except by apply _.
  apply Forall_app. split; [apply Hb|].
  destruct (body w).1 as [|e]; [constructor|].
  destruct (is_Exception e); [apply Hh|constructor].
Qed.

Lemma emits_only_try_finally {A} P (body : M A) fin
      `{!Grows body} `{!Grows fin} :
  emits_only P body -> emits_only P fin -> emits_only P (try_finally body fin).
Proof.
  intros Hb Hf w. rewrite emitted_try_finally by apply _.
  apply Forall_app. split; [apply Hb|apply Hf].
Qed.

(** *** Order of events *)

Lemma precedes_nil P Q : precedes P Q [].
Proof. intros [|x l1] e l2 H; discriminate. Qed.

Lemma precedes_cons_skip P Q e l :
  Q e = false -> precedes P Q l -> precedes P Q (e :: l).
Proof.
  intros Hq H [|x l1] e' l2 Heq Hq'; simpl in Heq.
  - simplify_eq. congruence.
  - simplify_eq. apply Exists_cons_tl. by eapply H.
Qed.

Lemma precedes_cons_seen P Q e l :
  P e = true -> Q e = false -> precedes P Q (e :: l).
Proof.
  intros Hp Hq [|x l1] e' l2 Heq Hq'; simpl in Heq.
  - simplify_eq. congruence.
  - simplify_eq. by apply Exists_cons_hd.
Qed.

Lemma precedes_free P Q l :
  Forall (fun e => Q e = false) l -> precedes P Q l.
Proof.
  induction 1 as [|e l He _ IH]; [apply precedes_nil|].
  by apply precedes_cons_skip.
Qed.

Lemma precedes_app_free P Q l k :
  precedes P Q l -> Forall (fun e => Q e = false) k -> precedes P Q (l ++ k).
Proof.
  revert P Q. induction l as [|x l IH]; intros P Q H Hk; simpl.
  - by apply precedes_free.
  - intros [|y l1] e l2 Heq Hq; simpl in Heq.
    + injection Heq as <- _. specialize (H [] x l eq_refl Hq).
      by apply Exists_nil in H.
    + injection Heq as <- Heq.
      destruct (P x) eqn:Hp; [by apply Exists_cons_hd|].
      apply Exists_cons_tl. eapply (IH P Q); [|exact Hk|exact Heq|exact Hq].
      intros m1 e1 m2 -> Hq1.
      specialize (H (x :: m1) e1 m2 eq_refl Hq1).
      apply Exists_cons in H as [H|H]; [congruence|exact H].
Qed.

Lemma precedes_app_seen P Q l k :
  precedes P Q l -> Exists (fun e => P e = true) l -> precedes P Q (l ++ k).
Proof.
  revert P Q. induction l as [|x l IH]; intros P Q H Hex; simpl.
  - by apply Exists_nil in Hex.
  - intros [|y l1] e l2 Heq Hq; simpl in Heq.
    + injection Heq as <- _. specialize (H [] x l eq_refl Hq).
      by apply Exists_nil in H.
    + injection Heq as <- Heq.
      destruct (P x) eqn:Hp; [by apply Exists_cons_hd|].
      apply Exists_cons_tl. eapply (IH P Q); [| |exact Heq|exact Hq].
      * intros m1 e1 m2 -> Hq1.
        specialize (H (x :: m1) e1 m2 eq_refl Hq1).
        apply Exists_cons in H as [H|H]; [congruence|exact H].
      * apply Exists_cons in Hex as [Hex|Hex]; [congruence|exact Hex].
Qed.

Lemma app_eq_split_left {A} (R : A -> Prop) (l k l1 : list A) a rest :
  l ++ k = l1 ++ a :: rest -> R a -> Forall (fun x => ~ R x) k ->
  exists m, l = l1 ++ a :: m /\ rest = m ++ k.
Proof.
  revert l1. induction l as [|x l IH]; intros l1 Heq Ha Hk; simpl in Heq.
  - exfalso. subst k. apply Forall_app in Hk as [_ Hk].
    inversion Hk; subst. contradiction.
  - destruct l1 as [|y l1]; simpl in Heq.
    + injection Heq as -> <-. by exists l.
    + injection Heq as -> Heq.
      destruct (IH l1 Heq Ha Hk) as (m & -> & ->). by exists m.
Qed.

Lemma rich_after_completion_free TEXTS l :
  Forall (fun e => is_completion e = false) l -> rich_after_completion TEXTS l.
Proof.
  intros H l1 ms model t r l2 chat text mode raised l3 ->.
  apply Forall_app in H as [_ H]. by inversion H.
Qed.

Lemma rich_after_completion_cons_skip TEXTS e l :
  is_completion e = false ->
  rich_after_completion TEXTS l -> rich_after_completion TEXTS (e :: l).
Proof.
  intros He H [|x l1] ms model t r l2 chat text mode raised l3 Heq;
    simpl in Heq.
  - injection Heq as Hx _. by rewrite Hx in He.
  - injection Heq as _ Heq. by eapply H.
Qed.

Lemma rich_after_completion_cons_call TEXTS ms model t r l :
  Forall (fun e => match e with
                   | EvReply _ text (Some _) _ => footed_answer TEXTS r text
                   | _ => True
                   end) l ->
  rich_after_completion TEXTS l ->
  rich_after_completion TEXTS (EvCompletion ms model t r :: l).
Proof.
  intros Hl H [|x l1] ms' model' t' r' l2 chat text mode raised l3 Heq;
    simpl in Heq.
  - simplify_eq.
    apply Forall_app in Hl as [_ Hl]. by inversion Hl.
  - injection Heq as _ Heq. by eapply H.
Qed.

Lemma rich_after_completion_app_l TEXTS l k :
  Forall (fun e => is_completion e = false) l ->
  rich_after_completion TEXTS k -> rich_after_completion TEXTS (l ++ k).
Proof.
  induction 1 as [|e l He _ IH]; intros Hk; simpl; [done|].
  apply rich_after_completion_cons_skip; auto.
Qed.

Lemma rich_after_completion_app_r TEXTS l k :
  rich_after_completion TEXTS l ->
  Forall (fun e => is_completion e = false /\ is_rich_reply e = false) k ->
  rich_after_completion TEXTS (l ++ k).
Proof.
  intros Hl Hk l1 ms model t r l2 chat text mode raised l3 Heq.
  destruct (app_eq_split_left (fun e => is_completion e = true) _ _ _ _ _ Heq)
    as (m & -> & Heq'); [done| |].
  { eapply Forall_impl; [exact Hk|]. intros e [He _]. congruence. }
  symmetry in Heq'.
  destruct (app_eq_split_left (fun e => is_rich_reply e = true) _ _ _ _ _ Heq')
    as (m' & -> & _); [done| |].
  { eapply Forall_impl; [exact Hk|]. intros e [_ He]. congruence. }
  by eapply Hl.
Qed.

(** ** Facts about the program *)

Section Proofs.

Variable env : Env.
Variable str_format : string -> string -> string -> result string.
Variable TEXTS : gmap string (gmap string string).
Variable BASE_DIR : Path.

(** *** No call of the program rewrites the trace *)

#[export] Instance reply_text_grows u text mode :
  Grows (reply_text env u text mode).
Proof. intros w. unfold reply_text. cbv beta zeta. apply grows. Qed.

#[export] Instance send_chat_action_grows chat action :
  Grows (send_chat_action env chat action).
Proof. intros w. unfold send_chat_action. cbv beta zeta. apply grows. Qed.

#[export] Instance get_file_grows fid : Grows (get_file env fid).
Proof. intros w. unfold get_file. cbv beta zeta. apply grows. Qed.

#[export] Instance write_file_grows p data : Grows (write_file p data).
Proof. intros w. destruct data; by exists []; rewrite app_nil_r. Qed.

#[export] Instance download_to_drive_grows f p :
  Grows (download_to_drive env f p).
Proof.
  intros w. unfold download_to_drive.
  destruct (download_result env (w_trace w) f p). apply grows.
Qed.

#[export] Instance open_rb_read_grows p : Grows (open_rb_read p).
Proof. intros w. unfold open_rb_read. destruct (w_fs w !! p); apply grows. Qed.

#[export] Instance transcriptions_create_grows n d m l f :
  Grows (transcriptions_create env n d m l f).
Proof. intros w. unfold transcriptions_create. cbv beta zeta. apply grows. Qed.

#[export] Instance completions_create_grows ms m t :
  Grows (completions_create env ms m t).
Proof. intros w. unfold completions_create. cbv beta zeta. apply grows. Qed.

#[export] Instance logger_grows lvl msg : Grows (logger lvl msg).
Proof. unfold logger. apply _. Qed.

#[export] Instance path_exists_grows p : Grows (path_exists p).
Proof. intros w. by exists []; rewrite app_nil_r. Qed.

#[export] Instance os_remove_grows p : Grows (os_remove p).
Proof.
  intros w. unfold os_remove. destruct (w_fs w !! p); simpl.
  - by exists [EvRemove p].
  - by exists []; rewrite app_nil_r.
Qed.

#[export] Instance texts_get_grows s k : Grows (texts_get TEXTS s k).
Proof. unfold texts_get. apply _. Qed.

#[export] Instance build_full_response_grows t :
  Grows (build_full_response env str_format TEXTS t).
Proof. unfold build_full_response. apply _. Qed.

#[export] Instance safe_send_grows full u : Grows (safe_send env full u).
Proof. unfold safe_send. apply _. Qed.

#[export] Instance on_generation_error_grows e u :
  Grows (on_generation_error env TEXTS e u).
Proof. unfold on_generation_error. apply _. Qed.

#[export] Instance on_audio_error_grows e u :
  Grows (on_audio_error env TEXTS e u).
Proof. unfold on_audio_error. apply _. Qed.

#[export] Instance generate_jungian_response_grows t u :
  Grows (generate_jungian_response env str_format TEXTS t u).
Proof. unfold generate_jungian_response. apply _. Qed.

#[export] Instance start_command_grows u : Grows (start_command env TEXTS u).
Proof. unfold start_command. apply _. Qed.

#[export] Instance privacy_command_grows u :
  Grows (privacy_command env TEXTS u).
Proof. unfold privacy_command. apply _. Qed.

#[export] Instance download_and_transcribe_grows u :
  Grows (download_and_transcribe env str_format TEXTS BASE_DIR u).
Proof. unfold download_and_transcribe. apply _. Qed.

#[export] Instance cleanup_grows : Grows (cleanup BASE_DIR).
Proof.
  unfold cleanup. apply bind_grows; [apply _|]. intros []; apply _.
Qed.

#[export] Instance handle_voice_message_grows u :
  Grows (handle_voice_message env str_format TEXTS BASE_DIR u).
Proof. unfold handle_voice_message. apply _. Qed.

#[export] Instance handle_text_message_grows u :
  Grows (handle_text_message env str_format TEXTS u).
Proof. unfold handle_text_message. apply _. Qed.

(** *** Run equations of the primitive calls *)

Lemma log_to_log_to w a b : log_to (log_to w a) b = log_to w (a ++ b).
Proof. unfold log_to; simpl. by rewrite app_assoc. Qed.

Lemma texts_get_run s k w :
  texts_get TEXTS s k w =
  (match bundle_lookup TEXTS s k with
   | Some v => Ok v
   | None => Raise (KeyError (missing_key TEXTS s k))
   end, w).
Proof.
  unfold texts_get, bundle_lookup, missing_key, subscript, bind.
  destruct (TEXTS !! s) as [d|]; simpl; [|done].
  by destruct (d !! k).
Qed.

Lemma reply_text_run u text mode w :
  reply_text env u text mode w =
  let r := reply_text_result env (w_trace w) (effective_chat_id u) text mode in
  (opt_result r, log_to w [EvReply (effective_chat_id u) text mode r]).
Proof.
  unfold reply_text, bind, emit; simpl.
  by destruct (reply_text_result _ _ _ _ _).
Qed.

Lemma send_chat_action_run chat action w :
  send_chat_action env chat action w =
  let r := send_chat_action_result env (w_trace w) chat action in
  (opt_result r, log_to w [EvChatAction chat action r]).
Proof.
  unfold send_chat_action, bind, emit; simpl.
  by destruct (send_chat_action_result _ _ _ _).
Qed.

Lemma logger_run lvl msg w :
  logger lvl msg w = (Ok tt, log_to w [EvLog lvl msg]).
Proof. done. Qed.

Lemma completions_create_run ms model t w :
  completions_create env ms model t w =
  let r := completions_create_result env (w_trace w) ms model t in
  (r, log_to w [EvCompletion ms model t r]).
Proof.
  unfold completions_create, bind, emit; simpl.
  by destruct (completions_create_result _ _ _ _ _).
Qed.

(** Flattens the worlds and traces a run equation leaves behind. *)
Ltac norm_world :=
  unfold log_to; cbn [w_trace w_fs fst snd opt_result];
  rewrite <- ?app_assoc; cbn [app].

Lemma get_file_run fid w :
  get_file env fid w =
  let r := get_file_result env (w_trace w) fid in
  (r, log_to w [EvGetFile fid r]).
Proof.
  unfold get_file, bind, emit; cbv zeta.
  by destruct (get_file_result env (w_trace w) fid).
Qed.

Lemma download_to_drive_run file p w :
  download_to_drive env file p w =
  let d := download_result env (w_trace w) file p in
  (opt_result d.2,
   {| w_fs := match d.1 with
              | Some data => <[p := data]> (w_fs w)
              | None => w_fs w
              end;
      w_trace := w_trace w ++ [EvDownload file p d.1 d.2] |}).
Proof.
  unfold download_to_drive, bind, emit, write_file; cbv zeta.
  by destruct (download_result env (w_trace w) file p) as [[data|] [e|]].
Qed.

Lemma open_rb_read_run p w :
  open_rb_read p w =
  (match w_fs w !! p with
   | Some data => Ok data
   | None => Raise (FileNotFoundError p)
   end, log_to w [EvOpen p "rb"]).
Proof. unfold open_rb_read. by destruct (w_fs w !! p). Qed.

Lemma transcriptions_create_run n d m l f w :
  transcriptions_create env n d m l f w =
  let r := transcriptions_create_result env (w_trace w) n d m l f in
  (r, log_to w [EvTranscribe n d m l f r]).
Proof.
  unfold transcriptions_create, bind, emit; cbv zeta.
  by destruct (transcriptions_create_result env (w_trace w) n d m l f).
Qed.

(** *** What each call may emit *)

Section EmitsOnly.

Variable P : event -> Prop.

Lemma emits_only_reply_text u text mode :
  (forall r, P (EvReply (effective_chat_id u) text mode r)) ->
  emits_only P (reply_text env u text mode).
Proof.
  intros H w. erewrite emitted_app; [|by rewrite reply_text_run].
  by constructor.
Qed.

Lemma emits_only_send_chat_action chat action :
  (forall r, P (EvChatAction chat action r)) ->
  emits_only P (send_chat_action env chat action).
Proof.
  intros H w. erewrite emitted_app; [|by rewrite send_chat_action_run].
  by constructor.
Qed.

Lemma emits_only_logger lvl msg :
  P (EvLog lvl msg) -> emits_only P (logger lvl msg).
Proof. apply emits_only_emit. Qed.

Lemma emits_only_completions_create ms model t :
  (forall r, P (EvCompletion ms model t r)) ->
  emits_only P (completions_create env ms model t).
Proof.
  intros H w. erewrite emitted_app; [|by rewrite completions_create_run].
  by constructor.
Qed.

Lemma emits_only_get_file fid :
  (forall r, P (EvGetFile fid r)) -> emits_only P (get_file env fid).
Proof.
  intros H w. erewrite emitted_app; [|by rewrite get_file_run].
  by constructor.
Qed.

Lemma emits_only_download_to_drive f p :
  (forall wr r, P (EvDownload f p wr r)) ->
  emits_only P (download_to_drive env f p).
Proof.
  intros H w. erewrite emitted_app; [|by rewrite download_to_drive_run].
  by constructor.
Qed.

Lemma emits_only_open_rb_read p :
  P (EvOpen p "rb") -> emits_only P (open_rb_read p).
Proof.
  intros H w. erewrite emitted_app; [|by rewrite open_rb_read_run].
  by constructor.
Qed.

Lemma emits_only_transcriptions_create n d m l f :
  (forall r, P (EvTranscribe n d m l f r)) ->
  emits_only P (transcriptions_create env n d m l f).
Proof.
  intros H w. erewrite emitted_app; [|by rewrite transcriptions_create_run].
  by constructor.
Qed.

Lemma emits_only_path_exists p : emits_only P (path_exists p).
Proof. by apply emits_only_silent. Qed.

Lemma emits_only_os_remove p : P (EvRemove p) -> emits_only P (os_remove p).
Proof.
  intros H w. unfold os_remove, emitted.
  destruct (w_fs w !! p); simpl.
  - rewrite drop_app_length. by constructor.
  - rewrite drop_all. constructor.
Qed.

Lemma emits_only_texts_get s k : emits_only P (texts_get TEXTS s k).
Proof. apply emits_only_silent. intros w. by rewrite texts_get_run. Qed.

Lemma emits_only_cleanup :
  P (EvRemove (temp_ogg_path BASE_DIR)) -> emits_only P (cleanup BASE_DIR).
Proof.
  intros H. unfold cleanup.
  apply emits_only_bind; [apply _ | intros []; apply _ | |].
  - apply emits_only_path_exists.
  - intros []; [by apply emits_only_os_remove | apply emits_only_ret].
Qed.

End EmitsOnly.

(** Walks through a handler, leaving one goal for each event it can emit. *)
Ltac emits_only_tac :=
  repeat
    (intros;
     first
       [ apply emits_only_ret | apply emits_only_raise
       | apply emits_only_lift | apply emits_only_raise_if
       | apply emits_only_texts_get | apply emits_only_subscript
       | apply emits_only_first_choice_content
       | apply emits_only_reply_text | apply emits_only_send_chat_action
       | apply emits_only_logger | apply emits_only_completions_create
       | apply emits_only_get_file | apply emits_only_download_to_drive
       | apply emits_only_open_rb_read
       | apply emits_only_transcriptions_create
       | apply emits_only_path_exists | apply emits_only_os_remove
       | apply emits_only_cleanup
       | match goal with
         | |- emits_only _ (if ?b then _ else _) => destruct b
         end
       | progress unfold handle_voice_message, handle_text_message,
           start_command, privacy_command, generate_jungian_response,
           build_full_response, safe_send, on_generation_error,
           on_audio_error, download_and_transcribe
       | apply emits_only_try_finally; [apply _ | apply _ | |]
       | apply emits_only_try_except; [apply _ | apply _ | |]
       | apply emits_only_bind; [apply _ | apply _ | |] ]).

(** *** Run equations of the generation routine *)

Lemma build_full_response_run user_text w :
  build_full_response env str_format TEXTS user_text w =
  match bundle_lookup TEXTS "prompts" "user_input_wrapper" with
  | None => (Raise (KeyError (missing_key TEXTS "prompts" "user_input_wrapper")), w)
  | Some template =>
  match str_format template "user_input" user_text with
  | Raise e => (Raise e, w)
  | Ok wrapped_input =>
  match bundle_lookup TEXTS "prompts" "system_prompt" with
  | None => (Raise (KeyError (missing_key TEXTS "prompts" "system_prompt")), w)
  | Some system_prompt =>
      let messages :=
        [ {| role := "system"; content := system_prompt |};
          {| role := "user"; content := wrapped_input |} ] in
      let r := completions_create_result env (w_trace w) messages
                 "llama-3.3-70b-versatile" (Qmake 7 10) in
      let w1 := log_to w [EvCompletion messages "llama-3.3-70b-versatile"
                            (Qmake 7 10) r] in
      match r with
      | Raise e => (Raise e, w1)
      | Ok [] => (Raise (IndexError "list index out of range"), w1)
      | Ok (c :: _) =>
          match bundle_lookup TEXTS "messages" "footer_disclaimer" with
          | None =>
              (Raise (KeyError (missing_key TEXTS "messages" "footer_disclaimer")),
               w1)
          | Some footer => (Ok (py_str c +:+ footer), w1)
          end
      end
  end end end.
Proof.
  unfold build_full_response.
  unfold bind at 1. rewrite texts_get_run.
  destruct (bundle_lookup TEXTS "prompts" "user_input_wrapper") as [tmpl|];
    [|done].
  unfold bind at 1.
  destruct (str_format tmpl "user_input" user_text) as [wrapped|e];
    simpl; [|done].
  unfold bind at 1. rewrite texts_get_run.
  destruct (bundle_lookup TEXTS "prompts" "system_prompt") as [sys|]; [|done].
  unfold bind at 1. rewrite completions_create_run. cbv zeta.
  destruct (completions_create_result _ _ _ _ _) as [[|c cs]|e];
    [done| |done].
  unfold bind, lift, first_choice_content, ret. cbv beta iota.
  rewrite texts_get_run.
  by destruct (bundle_lookup TEXTS "messages" "footer_disclaimer").
Qed.

Lemma safe_send_run full u w :
  safe_send env full u w =
  let chat := effective_chat_id u in
  let r1 := reply_text_result env (w_trace w) chat full (Some "Markdown") in
  let rich := EvReply chat full (Some "Markdown") r1 in
  match r1 with
  | None => (Ok tt, log_to w [rich])
  | Some e =>
      if is_Exception e then
        let warn :=
          EvLog WARNING
            ("Markdown parsing failed, falling back to plain text. Error: "
               +:+ exn_str e) in
        let r2 := reply_text_result env (w_trace w ++ [rich; warn]) chat full
                    None in
        (opt_result r2, log_to w [rich; warn; EvReply chat full None r2])
      else (Raise e, log_to w [rich])
  end.
Proof.
  unfold safe_send, try_except. rewrite reply_text_run. cbv zeta.
  destruct (reply_text_result env (w_trace w) _ full (Some "Markdown"))
    as [e|]; simpl; [|done].
  destruct (is_Exception e); [|done].
  unfold bind. rewrite logger_run, reply_text_run. cbv zeta.
  by rewrite !log_to_log_to.
Qed.

Lemma safe_send_emits_rich_first full u w :
  exists rest,
    emitted (safe_send env full u) w =
    EvReply (effective_chat_id u) full (Some "Markdown")
      (reply_text_result env (w_trace w) (effective_chat_id u) full
         (Some "Markdown")) :: rest.
Proof.
  pose proof (safe_send_run full u w) as H. cbv zeta in H.
  destruct (reply_text_result env (w_trace w) _ full (Some "Markdown"))
    as [e|]; [destruct (is_Exception e)|];
    eexists; apply emitted_app; rewrite H; reflexivity.
Qed.

Lemma on_generation_error_run e u w :
  on_generation_error env TEXTS e u w =
  let chat := effective_chat_id u in
  let line := EvLog ERROR ("LLM Generation Error: " +:+ exn_str e) in
  match bundle_lookup TEXTS "errors" "generic_error" with
  | None =>
      (Raise (KeyError (missing_key TEXTS "errors" "generic_error")),
       log_to w [line])
  | Some generic_error =>
      let r := reply_text_result env (w_trace w ++ [line]) chat generic_error
                 None in
      (opt_result r, log_to w [line; EvReply chat generic_error None r])
  end.
Proof.
  unfold on_generation_error. unfold bind at 1. rewrite logger_run.
  unfold bind. rewrite texts_get_run.
  destruct (bundle_lookup TEXTS "errors" "generic_error") as [g|]; [|done].
  rewrite reply_text_run. cbv zeta. by rewrite log_to_log_to.
Qed.

Lemma generate_jungian_response_run user_text u w :
  generate_jungian_response env str_format TEXTS user_text u w =
  match build_full_response env str_format TEXTS user_text w with
  | (Ok full, w1) =>
      match safe_send env full u w1 with
      | (Ok tt, w2) => (Ok tt, w2)
      | (Raise e, w2) =>
          if is_Exception e then on_generation_error env TEXTS e u w2
          else (Raise e, w2)
      end
  | (Raise e, w1) =>
      if is_Exception e then on_generation_error env TEXTS e u w1
      else (Raise e, w1)
  end.
Proof.
  unfold generate_jungian_response, try_except, bind.
  destruct (build_full_response _ _ _ _ w) as [[full|e] w1]; [|done].
  by destruct (safe_send env full u w1) as [[[]|e] w2].
Qed.

(** *** Run equations of the voice handler's clauses *)

Lemma download_and_transcribe_run u w :
  download_and_transcribe env str_format TEXTS BASE_DIR u w =
  let chat := effective_chat_id u in
  let temp := temp_ogg_path BASE_DIR in
  let fid := message_voice_file_id u in
  let rf := get_file_result env (w_trace w) fid in
  let asked := EvGetFile fid rf in
  match rf with
  | Raise e => (Raise e, log_to w [asked])
  | Ok file =>
  let d := download_result env (w_trace w ++ [asked]) file temp in
  let fetched := EvDownload file temp d.1 d.2 in
  let w2 := {| w_fs := match d.1 with
                       | Some data => <[temp := data]> (w_fs w)
                       | None => w_fs w
                       end;
               w_trace := w_trace w ++ [asked; fetched] |} in
  match d.2 with
  | Some e => (Raise e, w2)
  | None =>
  let opened := EvOpen temp "rb" in
  match w_fs w2 !! temp with
  | None => (Raise (FileNotFoundError temp), log_to w2 [opened])
  | Some data =>
  let rt := transcriptions_create_result env (w_trace w2 ++ [opened])
              (path_str temp) data "whisper-large-v3" "it" "json" in
  let heard := EvTranscribe (path_str temp) data "whisper-large-v3" "it"
                 "json" rt in
  match rt with
  | Raise e => (Raise e, log_to w2 [opened; heard])
  | Ok transcribed_text =>
  match bundle_lookup TEXTS "messages" "transcription_done" with
  | None =>
      (Raise (KeyError (missing_key TEXTS "messages" "transcription_done")),
       log_to w2 [opened; heard])
  | Some template =>
  match str_format template "text" transcribed_text with
  | Raise e => (Raise e, log_to w2 [opened; heard])
  | Ok feedback_msg =>
      let rr := reply_text_result env (w_trace w2 ++ [opened; heard]) chat
                  feedback_msg (Some "Markdown") in
      let told := EvReply chat feedback_msg (Some "Markdown") rr in
      (match rr with
       | Some e => Raise e
       | None => Ok transcribed_text
       end, log_to w2 [opened; heard; told])
  end end end end end end.
Proof.
  unfold download_and_transcribe. cbv zeta.
  unfold bind at 1. rewrite get_file_run. cbv zeta.
  destruct (get_file_result env (w_trace w) (message_voice_file_id u))
    as [file|e]; [|done].
  unfold bind at 1. rewrite download_to_drive_run. cbv zeta. norm_world.
  destruct (download_result env _ file (temp_ogg_path BASE_DIR)) as [wr [e|]];
    norm_world; [done|].
  unfold bind at 1. rewrite open_rb_read_run. norm_world.
  destruct (_ !! temp_ogg_path BASE_DIR) as [data|]; [|done].
  unfold bind at 1. rewrite transcriptions_create_run. cbv zeta. norm_world.
  destruct (transcriptions_create_result env _ _ data _ _ _) as [text|e];
    [|done].
  unfold bind at 1. rewrite texts_get_run.
  destruct (bundle_lookup TEXTS "messages" "transcription_done") as [tmpl|];
    [|done].
  unfold bind at 1.
  destruct (str_format tmpl "text" text) as [feedback|e];
    cbn [lift ret raise]; [|done].
  unfold bind. rewrite reply_text_run. cbv zeta. norm_world.
  by destruct (reply_text_result env _ _ feedback (Some "Markdown")).
Qed.

Lemma on_audio_error_run e u w :
  on_audio_error env TEXTS e u w =
  let chat := effective_chat_id u in
  let line := EvLog ERROR ("Audio Processing Error: " +:+ exn_str e) in
  match bundle_lookup TEXTS "errors" "audio_error" with
  | None =>
      (Raise (KeyError (missing_key TEXTS "errors" "audio_error")),
       log_to w [line])
  | Some audio_error =>
      let r := reply_text_result env (w_trace w ++ [line]) chat audio_error
                 None in
      (opt_result r, log_to w [line; EvReply chat audio_error None r])
  end.
Proof.
  unfold on_audio_error. unfold bind at 1. rewrite logger_run.
  unfold bind. rewrite texts_get_run.
  destruct (bundle_lookup TEXTS "errors" "audio_error") as [g|]; [|done].
  rewrite reply_text_run. cbv zeta. by rewrite log_to_log_to.
Qed.

Lemma cleanup_run w :
  exists fs removal,
    cleanup BASE_DIR w =
    (Ok tt, {| w_fs := fs; w_trace := w_trace w ++ removal |}) /\
    Forall (eq (EvRemove (temp_ogg_path BASE_DIR))) removal.
Proof.
  unfold cleanup, path_exists, os_remove, bind, ret; simpl.
  destruct (w_fs w !! temp_ogg_path BASE_DIR) as [d|] eqn:E.
  - rewrite bool_decide_eq_true_2 by eauto. rewrite E.
    eexists _, [_]. split; [reflexivity|]. by repeat constructor.
  - rewrite bool_decide_eq_false_2 by (intros [? ?]; congruence).
    exists (w_fs w), []. rewrite app_nil_r. split; [by destruct w|constructor].
Qed.

Lemma handle_voice_message_run u w processing_audio :
  bundle_lookup TEXTS "messages" "processing_audio" = Some processing_audio ->
  reply_text_result env (w_trace w) (effective_chat_id u) processing_audio None
  = None ->
  handle_voice_message env str_format TEXTS BASE_DIR u w =
  try_finally
    (try_except
       (do transcribed_text <-
          download_and_transcribe env str_format TEXTS BASE_DIR u;
        generate_jungian_response env str_format TEXTS transcribed_text u)
       (fun e => on_audio_error env TEXTS e u))
    (cleanup BASE_DIR)
    (log_to w [EvReply (effective_chat_id u) processing_audio None None]).
Proof.
  intros Hpa Hr. unfold handle_voice_message.
  unfold bind at 1. rewrite texts_get_run, Hpa.
  unfold bind at 1. rewrite reply_text_run. cbv zeta. by rewrite Hr.
Qed.

Lemma download_failure_run u w file written e :
  get_file_result env (w_trace w) (message_voice_file_id u) = Ok file ->
  download_result env
    (w_trace w ++ [EvGetFile (message_voice_file_id u) (Ok file)])
    file (temp_ogg_path BASE_DIR) = (written, Some e) ->
  download_and_transcribe env str_format TEXTS BASE_DIR u w =
  (Raise e,
   {| w_fs := match written with
              | Some d => <[temp_ogg_path BASE_DIR := d]> (w_fs w)
              | None => w_fs w
              end;
      w_trace := w_trace w ++
                 [EvGetFile (message_voice_file_id u) (Ok file);
                  EvDownload file (temp_ogg_path BASE_DIR) written (Some e)]
   |}).
Proof.
  intros Hg Hd. unfold download_and_transcribe.
  unfold bind at 1. unfold get_file. rewrite Hg.
  unfold bind at 1; simpl.
  unfold bind at 1. unfold download_to_drive; simpl. rewrite Hd.
  unfold bind, emit, write_file; simpl. rewrite <- app_assoc; simpl.
  by destruct written.
Qed.

Lemma voice_failure_run u w w2 processing_audio audio_error e :
  let chat := effective_chat_id u in
  let w1 := log_to w [EvReply chat processing_audio None None] in
  let line := EvLog ERROR ("Audio Processing Error: " +:+ exn_str e) in
  bundle_lookup TEXTS "messages" "processing_audio" = Some processing_audio ->
  reply_text_result env (w_trace w) chat processing_audio None = None ->
  download_and_transcribe env str_format TEXTS BASE_DIR u w1 = (Raise e, w2) ->
  is_Exception e = true ->
  bundle_lookup TEXTS "errors" "audio_error" = Some audio_error ->
  let r := reply_text_result env (w_trace w2 ++ [line]) chat audio_error None in
  exists fs removal,
    handle_voice_message env str_format TEXTS BASE_DIR u w =
    (opt_result r,
     {| w_fs := fs;
        w_trace := w_trace w2 ++
                   [line; EvReply chat audio_error None r] ++ removal |}) /\
    Forall (eq (EvRemove (temp_ogg_path BASE_DIR))) removal.
Proof.
  intros chat w1 line Hpa Hr Hdt He Hae r.
  rewrite (handle_voice_message_run _ _ _ Hpa Hr). fold chat w1.
  unfold try_finally, try_except. unfold bind at 1. rewrite Hdt, He.
  rewrite on_audio_error_run, Hae. cbv zeta. fold chat line r.
  destruct (cleanup_run (log_to w2 [line; EvReply chat audio_error None r]))
    as (fs & removal & Hc & Hrem).
  rewrite Hc. exists fs, removal. split; [|exact Hrem].
  simpl. rewrite <- app_assoc. by destruct r.
Qed.

Lemma delivered_app l k : delivered (l ++ k) = delivered l ++ delivered k.
Proof. unfold delivered. apply omap_app. Qed.

Lemma delivered_removals p removal :
  Forall (eq (EvRemove p)) removal -> delivered removal = [].
Proof. induction 1 as [|ev evs <- _ IH]; [done|exact IH]. Qed.

(** *** Order inside the clauses of the voice handler *)

(** Decides [precedes] on an explicit list of events. *)
Ltac precedes_tac :=
  repeat first
    [ apply precedes_nil
    | apply precedes_cons_seen; [reflexivity | reflexivity]
    | apply precedes_cons_skip; [reflexivity |] ].

(** Reads the emitted events off a world given as [w] extended by a list. *)
Ltac emitted_list :=
  unfold emitted; norm_world; rewrite ?drop_app_length, ?app_nil_r, ?drop_all.

Lemma download_and_transcribe_order u w :
  let run := download_and_transcribe env str_format TEXTS BASE_DIR u in
  precedes download_done is_transcription (emitted run w) /\
  (forall text, (run w).1 = Ok text ->
                Exists (fun e => transcription_done e = true) (emitted run w)).
Proof.
  cbv zeta. unfold emitted. rewrite download_and_transcribe_run. cbv zeta.
  repeat case_match; emitted_list.
  all: split; [precedes_tac | intros text' Hok; simplify_eq/=].
  all: repeat first [ apply Exists_cons_hd; reflexivity | apply Exists_cons_tl ].
Qed.

(** Case analysis on an innermost scrutinee of the goal. *)
Ltac case_inner :=
  match goal with
  | |- context [match ?x with _ => _ end] =>
      lazymatch x with
      | context [match _ with _ => _ end] => fail
      | _ => destruct x eqn:?
      end
  end.

Ltac footed_tac :=
  first
    [ exact I
    | eexists _, _, _; split; [reflexivity | split; [eassumption | reflexivity]] ].

(** Decides [rich_after_completion] on an explicit list of events. *)
Ltac rich_after_completion_tac :=
  repeat first
    [ apply rich_after_completion_cons_skip; [reflexivity |]
    | apply rich_after_completion_cons_call;
      [ repeat (constructor; [simpl; footed_tac |]); constructor |]
    | apply rich_after_completion_free; constructor ].

Lemma generate_jungian_response_rich_after_completion text u w :
  rich_after_completion TEXTS
    (emitted (generate_jungian_response env str_format TEXTS text u) w).
Proof.
  unfold emitted.
  rewrite generate_jungian_response_run, build_full_response_run. cbv zeta.
  repeat (first [ rewrite safe_send_run | rewrite on_generation_error_run
                | case_inner ]; cbv zeta).
  all: simplify_eq; emitted_list.
  all: rich_after_completion_tac.
Qed.

(** The trace of a voice update, clause by clause. *)
Lemma handle_voice_message_emitted u w processing_audio :
  let chat := effective_chat_id u in
  let w1 := log_to w [EvReply chat processing_audio None None] in
  let steps := download_and_transcribe env str_format TEXTS BASE_DIR u in
  let body :=
    (do transcribed_text <- steps;
     generate_jungian_response env str_format TEXTS transcribed_text u) in
  let guarded := try_except body (fun e => on_audio_error env TEXTS e u) in
  bundle_lookup TEXTS "messages" "processing_audio" = Some processing_audio ->
  reply_text_result env (w_trace w) chat processing_audio None = None ->
  emitted (handle_voice_message env str_format TEXTS BASE_DIR u) w =
  EvReply chat processing_audio None None ::
    (emitted steps w1 ++
       match (steps w1).1 with
       | Ok text =>
           emitted (generate_jungian_response env str_format TEXTS text u)
             (steps w1).2
       | Raise _ => []
       end) ++
    match (body w1).1 with
    | Ok _ => []
    | Raise e =>
        if is_Exception e
        then emitted (on_audio_error env TEXTS e u) (body w1).2
        else []
    end ++
    emitted (cleanup BASE_DIR) (guarded w1).2.
Proof.
  intros chat w1 steps body guarded Hpa Hr.
  apply emitted_app. rewrite (handle_voice_message_run _ _ _ Hpa Hr).
  fold chat w1 steps body guarded.
  rewrite (trace_emitted (try_finally guarded (cleanup BASE_DIR)) w1).
  rewrite emitted_try_finally by apply _.
  unfold guarded at 1. rewrite emitted_try_except by apply _.
  unfold body at 1. rewrite emitted_bind by apply _.
  unfold w1 at 1. simpl. by rewrite <- !app_assoc.
Qed.

Lemma handle_voice_message_emitted_rejected u w processing_audio e :
  bundle_lookup TEXTS "messages" "processing_audio" = Some processing_audio ->
  reply_text_result env (w_trace w) (effective_chat_id u) processing_audio None
  = Some e ->
  emitted (handle_voice_message env str_format TEXTS BASE_DIR u) w =
  [EvReply (effective_chat_id u) processing_audio None (Some e)].
Proof.
  intros Hpa Hr. apply emitted_app. unfold handle_voice_message.
  unfold bind at 1. rewrite texts_get_run, Hpa.
  unfold bind at 1. rewrite reply_text_run. cbv zeta. by rewrite Hr.
Qed.

(** *** The disk *)

Lemma cleanup_removes w :
  w_fs (cleanup BASE_DIR w).2 !! temp_ogg_path BASE_DIR = None.
Proof.
  unfold cleanup, path_exists, os_remove, bind, ret; simpl.
  destruct (w_fs w !! temp_ogg_path BASE_DIR) as [d|] eqn:E.
  - rewrite bool_decide_eq_true_2 by eauto. rewrite E; simpl.
    apply lookup_delete_eq.
  - rewrite bool_decide_eq_false_2 by (intros [? ?]; congruence).
    done.
Qed.

Lemma cleanup_run_present w :
  is_Some (w_fs w !! temp_ogg_path BASE_DIR) ->
  cleanup BASE_DIR w =
  (Ok tt, {| w_fs := delete (temp_ogg_path BASE_DIR) (w_fs w);
             w_trace := w_trace w ++ [EvRemove (temp_ogg_path BASE_DIR)] |}).
Proof.
  intros [d Hd]. unfold cleanup, path_exists, os_remove, bind, ret; simpl.
  rewrite bool_decide_eq_true_2 by eauto. by rewrite Hd.
Qed.

Lemma try_finally_post {A} (body : M A) fin (Post : world -> Prop) w :
  (forall w', Post (fin w').2) -> Post (try_finally body fin w).2.
Proof.
  intros H. unfold try_finally. destruct (body w) as [r w1].
  specialize (H w1). by destruct (fin w1) as [[[]|e] w2].
Qed.

(** ** Properties of the handlers *)

(** C1: after the voice handler has finished, however it finished, the
    temporary audio file is not on disk.  The guarantee is the [finally]
    clause's, so it holds for every run that got past the feedback reply,
    whatever the download, the transcription, the analysis or the error
    reply did; a run that ends at the feedback reply never touches the
    disk, so there the file is absent as it was on entry. *)
Theorem temp_audio_absent_after_voice_handler (update : Update) (w : world) :
  w_fs w !! temp_ogg_path BASE_DIR = None \/
  (exists processing_audio,
      bundle_lookup TEXTS "messages" "processing_audio" = Some processing_audio /\
      reply_text_result env (w_trace w) (effective_chat_id update)
        processing_audio None = None) ->
  w_fs (handle_voice_message env str_format TEXTS BASE_DIR update w).2
    !! temp_ogg_path BASE_DIR = None.
Proof.
  intros H. unfold handle_voice_message.
  unfold bind at 1. rewrite texts_get_run.
  destruct (bundle_lookup TEXTS "messages" "processing_audio") as [pa|] eqn:Epa.
  - unfold bind at 1. rewrite reply_text_run; cbv zeta.
    destruct (reply_text_result env (w_trace w) (effective_chat_id update) pa None)
      as [e|] eqn:Er; simpl.
    + destruct H as [H|(pa' & Hpa & Hr)]; [exact H|].
      assert (pa' = pa) as -> by congruence. congruence.
    + apply (try_finally_post _ _
               (fun w' => w_fs w' !! temp_ogg_path BASE_DIR = None)).
      intros w'. apply cleanup_removes.
  - simpl. destruct H as [H|(pa' & Hpa & _)]; [exact H|congruence].
Qed.

(** C2, as the code has it: an exception of the plain-mode retry does not
    reach the caller.  The retry sits inside the routine's outer [try], whose
    [except Exception] clause catches it, logs it and sends the generic error
    notice; what the caller sees is the outcome of that last send. *)
Theorem plain_retry_failure_is_caught_by_outer_handler
        (user_text : string) (update : Update) (w w1 : world)
        (full generic_error : string) (e1 e2 : exn) :
  let chat := effective_chat_id update in
  let rich := EvReply chat full (Some "Markdown") (Some e1) in
  let warn :=
    EvLog WARNING
      ("Markdown parsing failed, falling back to plain text. Error: "
         +:+ exn_str e1) in
  let plain := EvReply chat full None (Some e2) in
  let line := EvLog ERROR ("LLM Generation Error: " +:+ exn_str e2) in
  build_full_response env str_format TEXTS user_text w = (Ok full, w1) ->
  reply_text_result env (w_trace w1) chat full (Some "Markdown") = Some e1 ->
  is_Exception e1 = true ->
  reply_text_result env (w_trace w1 ++ [rich; warn]) chat full None = Some e2 ->
  is_Exception e2 = true ->
  bundle_lookup TEXTS "errors" "generic_error" = Some generic_error ->
  let notice :=
    reply_text_result env (w_trace w1 ++ [rich; warn; plain; line]) chat
      generic_error None in
  generate_jungian_response env str_format TEXTS user_text update w =
  (opt_result notice,
   log_to w1 [rich; warn; plain; line; EvReply chat generic_error None notice]).
Proof.
  intros chat rich warn plain line Hb H1 He1 H2 He2 Hg notice.
  rewrite generate_jungian_response_run, Hb, safe_send_run. cbv zeta.
  fold chat. rewrite H1, He1. fold rich warn. rewrite H2. simpl. rewrite He2.
  rewrite on_generation_error_run, Hg. cbv zeta.
  rewrite log_to_log_to. simpl. rewrite <- app_assoc. done.
Qed.

(** C3: when the Markdown send of the generated response raises an error,
    the same text is sent once more with [parse_mode=None]; whatever that
    retry does, the text is not sent a third time: all that can follow is
    the log line and the generic error notice of the outer handler. *)
Theorem markdown_failure_retried_once_in_plain
        (user_text : string) (update : Update) (w w1 : world)
        (full : string) (e : exn) :
  let chat := effective_chat_id update in
  let rich := EvReply chat full (Some "Markdown") (Some e) in
  let warn :=
    EvLog WARNING
      ("Markdown parsing failed, falling back to plain text. Error: "
         +:+ exn_str e) in
  build_full_response env str_format TEXTS user_text w = (Ok full, w1) ->
  reply_text_result env (w_trace w1) chat full (Some "Markdown") = Some e ->
  is_Exception e = true ->
  let retry :=
    reply_text_result env (w_trace w1 ++ [rich; warn]) chat full None in
  exists tail,
    w_trace (generate_jungian_response env str_format TEXTS user_text update w).2
    = w_trace w1 ++ [rich; warn; EvReply chat full None retry] ++ tail /\
    (retry = None -> tail = []) /\
    Forall (fun ev =>
              (exists msg, ev = EvLog ERROR msg) \/
              (exists generic_error r,
                  bundle_lookup TEXTS "errors" "generic_error"
                  = Some generic_error /\
                  ev = EvReply chat generic_error None r)) tail.
Proof.
  intros chat rich warn Hb H1 He retry.
  rewrite generate_jungian_response_run, Hb, safe_send_run. cbv zeta.
  fold chat. rewrite H1, He. fold rich warn retry.
  destruct retry as [e2|] eqn:Hr; simpl.
  - destruct (is_Exception e2).
    + rewrite on_generation_error_run. cbv zeta.
      destruct (bundle_lookup TEXTS "errors" "generic_error") as [g|] eqn:Hg.
      * eexists [_; _]. simpl. rewrite <- app_assoc. simpl.
        split; [reflexivity|]. split; [done|].
        constructor; [left; eauto|].
        constructor; [right; eauto|constructor].
      * eexists [_]. simpl. rewrite <- app_assoc. simpl.
        split; [reflexivity|]. split; [done|].
        constructor; [left; eauto|constructor].
    + exists []. simpl. split; [done|]. split; [done|constructor].
  - exists []. simpl. split; [done|]. split; [done|constructor].
Qed.

(** C4, as the code has it: of the four rich-mode sends only the one of the
    generated response has the plain-mode retry.  The welcome and the privacy
    reply are sent once, with [parse_mode="Markdown"], and an exception of
    that send is raised to the caller of the handler.  The transcription-done
    reply is sent once as well: an error of that send is caught by the
    [except] clause of the voice handler, which logs it and sends the
    [audio_error] text; the reply is not sent again and the transcript never
    reaches the generation routine. *)
Theorem only_generated_response_has_plain_fallback (update : Update) :
  let chat := effective_chat_id update in
  (forall w welcome,
      bundle_lookup TEXTS "messages" "welcome" = Some welcome ->
      let r := reply_text_result env (w_trace w) chat welcome (Some "Markdown") in
      start_command env TEXTS update w =
      (opt_result r, log_to w [EvReply chat welcome (Some "Markdown") r])) /\
  (forall w privacy,
      bundle_lookup TEXTS "messages" "privacy" = Some privacy ->
      let r := reply_text_result env (w_trace w) chat privacy (Some "Markdown") in
      privacy_command env TEXTS update w =
      (opt_result r, log_to w [EvReply chat privacy (Some "Markdown") r])) /\
  (forall user_text w w1 full e,
      let rich := EvReply chat full (Some "Markdown") (Some e) in
      let warn :=
        EvLog WARNING
          ("Markdown parsing failed, falling back to plain text. Error: "
             +:+ exn_str e) in
      build_full_response env str_format TEXTS user_text w = (Ok full, w1) ->
      reply_text_result env (w_trace w1) chat full (Some "Markdown") = Some e ->
      is_Exception e = true ->
      reply_text_result env (w_trace w1 ++ [rich; warn]) chat full None = None ->
      generate_jungian_response env str_format TEXTS user_text update w =
      (Ok tt, log_to w1 [rich; warn; EvReply chat full None None])) /\
  (forall w processing_audio audio_error file data text template feedback e,
      let temp := temp_ogg_path BASE_DIR in
      let w1 := log_to w [EvReply chat processing_audio None None] in
      let asked := EvGetFile (message_voice_file_id update) (Ok file) in
      let fetched := EvDownload file temp (Some data) None in
      let opened := EvOpen temp "rb" in
      let heard :=
        EvTranscribe (path_str temp) data "whisper-large-v3" "it" "json"
          (Ok text) in
      let rich := EvReply chat feedback (Some "Markdown") (Some e) in
      let line := EvLog ERROR ("Audio Processing Error: " +:+ exn_str e) in
      bundle_lookup TEXTS "messages" "processing_audio"
      = Some processing_audio ->
      reply_text_result env (w_trace w) chat processing_audio None = None ->
      get_file_result env (w_trace w1) (message_voice_file_id update)
      = Ok file ->
      download_result env (w_trace w1 ++ [asked]) file temp
      = (Some data, None) ->
      transcriptions_create_result env (w_trace w1 ++ [asked; fetched; opened])
        (path_str temp) data "whisper-large-v3" "it" "json" = Ok text ->
      bundle_lookup TEXTS "messages" "transcription_done" = Some template ->
      str_format template "text" text = Ok feedback ->
      reply_text_result env (w_trace w1 ++ [asked; fetched; opened; heard])
        chat feedback (Some "Markdown") = Some e ->
      is_Exception e = true ->
      bundle_lookup TEXTS "errors" "audio_error" = Some audio_error ->
      let r :=
        reply_text_result env
          (w_trace w1 ++ [asked; fetched; opened; heard; rich; line]) chat
          audio_error None in
      handle_voice_message env str_format TEXTS BASE_DIR update w =
      (opt_result r,
       {| w_fs := delete temp (<[temp := data]> (w_fs w));
          w_trace := w_trace w1 ++
                     [ asked; fetched; opened; heard; rich; line;
                       EvReply chat audio_error None r; EvRemove temp ] |})).
Proof.
  intros chat. split; [|split; [|split]].
  - intros w welcome Hw r. unfold start_command, bind.
    by rewrite texts_get_run, Hw, reply_text_run.
  - intros w privacy Hp r. unfold privacy_command, bind.
    by rewrite texts_get_run, Hp, reply_text_run.
  - intros user_text w w1 full e rich warn Hb H1 He H2.
    rewrite generate_jungian_response_run, Hb, safe_send_run. cbv zeta.
    fold chat. rewrite H1, He. fold rich warn. by rewrite H2.
  - intros w pa ae file data text template feedback e temp w1 asked fetched
      opened heard rich line Hpa Hr Hg Hd Ht Htmpl Hf Hrich He Hae r.
    assert (download_and_transcribe env str_format TEXTS BASE_DIR update w1
            = (Raise e,
               {| w_fs := <[temp := data]> (w_fs w);
                  w_trace := w_trace w1 ++
                             [asked; fetched; opened; heard; rich] |}))
      as Hdt.
    { rewrite download_and_transcribe_run. cbv zeta. fold chat temp.
      rewrite Hg. fold asked. rewrite Hd. cbn [fst snd]. fold fetched.
      cbn [w_fs w_trace]. rewrite lookup_insert_eq. fold opened.
      rewrite <- app_assoc. cbn [app]. rewrite Ht. fold heard.
      rewrite Htmpl, Hf. rewrite <- app_assoc. cbn [app]. rewrite Hrich.
      fold rich. unfold log_to. cbn [w_fs w_trace].
      rewrite <- app_assoc. by cbn [app]. }
    rewrite (handle_voice_message_run _ _ _ Hpa Hr). fold chat w1.
    unfold try_finally, try_except. unfold bind at 1. rewrite Hdt, He.
    rewrite on_audio_error_run, Hae. cbv zeta. fold chat line.
    cbn [w_trace]. rewrite <- app_assoc. cbn [app]. fold r.
    cbv beta iota.
    rewrite cleanup_run_present
      by (unfold log_to; cbn [w_fs]; rewrite lookup_insert_eq; eauto).
    unfold log_to. cbn [w_fs w_trace]. rewrite <- !app_assoc. cbn [app].
    by destruct r.
Qed.

(** C5: the completion endpoint receives the system prompt and, as the user
    message, the wrapper template with [user_input] filled by the text as it
    came in; the first choice's content with the footer appended is what is
    sent, with [parse_mode="Markdown"] first, and it is what the user gets
    when Telegram accepts that send. *)
Theorem text_is_wrapped_answered_and_footed
        (user_text : string) (update : Update) (w : world)
        (template wrapped system_prompt footer analysis : string)
        (others : list (option string)) :
  let chat := effective_chat_id update in
  let messages :=
    [ {| role := "system"; content := system_prompt |};
      {| role := "user"; content := wrapped |} ] in
  let call :=
    EvCompletion messages "llama-3.3-70b-versatile" (Qmake 7 10)
      (Ok (Some analysis :: others)) in
  bundle_lookup TEXTS "prompts" "user_input_wrapper" = Some template ->
  str_format template "user_input" user_text = Ok wrapped ->
  bundle_lookup TEXTS "prompts" "system_prompt" = Some system_prompt ->
  completions_create_result env (w_trace w) messages
    "llama-3.3-70b-versatile" (Qmake 7 10) = Ok (Some analysis :: others) ->
  bundle_lookup TEXTS "messages" "footer_disclaimer" = Some footer ->
  let r :=
    reply_text_result env (w_trace w ++ [call]) chat (analysis +:+ footer)
      (Some "Markdown") in
  let run := generate_jungian_response env str_format TEXTS user_text update in
  (exists tail,
      emitted run w =
      [call; EvReply chat (analysis +:+ footer) (Some "Markdown") r] ++ tail) /\
  (r = None ->
   run w = (Ok tt, log_to w [call; EvReply chat (analysis +:+ footer)
                                     (Some "Markdown") None]) /\
   delivered (emitted run w) = [analysis +:+ footer]).
Proof.
  intros chat messages call Ht Hf Hs Hc Hfoot r run.
  assert (build_full_response env str_format TEXTS user_text w
          = (Ok (analysis +:+ footer), log_to w [call])) as Hb.
  { rewrite build_full_response_run, Ht, Hf, Hs. cbv zeta.
    fold messages. rewrite Hc, Hfoot. done. }
  assert (forall tr, w_trace (run w).2 = w_trace w ++ tr -> emitted run w = tr)
    as Hem by apply emitted_app.
  split.
  - unfold run, generate_jungian_response.
    rewrite emitted_try_except by apply _.
    rewrite emitted_bind by apply _. rewrite Hb. simpl.
    rewrite (emitted_app _ _ [call]) by (by rewrite Hb).
    destruct (safe_send_emits_rich_first (analysis +:+ footer) update
                (log_to w [call])) as [rest Hrest].
    rewrite Hrest. simpl. fold chat r. eexists. reflexivity.
  - intros Hr.
    assert (run w = (Ok tt, log_to w [call; EvReply chat (analysis +:+ footer)
                                              (Some "Markdown") None])) as Hrun.
    { unfold run.
      rewrite generate_jungian_response_run, Hb, safe_send_run. cbv zeta.
      simpl w_trace. fold chat r. rewrite Hr. by rewrite log_to_log_to. }
    split; [exact Hrun|].
    rewrite (Hem [call; EvReply chat (analysis +:+ footer) (Some "Markdown") None]).
    + done.
    + by rewrite Hrun.
Qed.

(** C6: when the download, the transcription or the feedback reply of the
    voice handler fails with an error, the handler logs it, replies with the
    [audio_error] text and ends with whatever that reply does, so the error
    itself never reaches the caller; the completion endpoint is not called.
    When it is the download that fails, the user gets the processing notice
    and then the [audio_error] text, and nothing else. *)
Theorem audio_failure_is_answered_with_audio_error
        (update : Update) (w : world) (processing_audio audio_error : string) :
  let chat := effective_chat_id update in
  let w1 := log_to w [EvReply chat processing_audio None None] in
  let run := handle_voice_message env str_format TEXTS BASE_DIR update in
  bundle_lookup TEXTS "messages" "processing_audio" = Some processing_audio ->
  reply_text_result env (w_trace w) chat processing_audio None = None ->
  bundle_lookup TEXTS "errors" "audio_error" = Some audio_error ->
  (forall e w2,
      download_and_transcribe env str_format TEXTS BASE_DIR update w1
      = (Raise e, w2) ->
      is_Exception e = true ->
      let line := EvLog ERROR ("Audio Processing Error: " +:+ exn_str e) in
      let r := reply_text_result env (w_trace w2 ++ [line]) chat audio_error
                 None in
      (run w).1 = opt_result r /\
      (exists removal,
          w_trace (run w).2 =
          w_trace w2 ++ [line; EvReply chat audio_error None r] ++ removal /\
          Forall (eq (EvRemove (temp_ogg_path BASE_DIR))) removal) /\
      Forall (fun ev => is_completion ev = false) (emitted run w)) /\
  (forall file written e,
      get_file_result env (w_trace w1) (message_voice_file_id update)
      = Ok file ->
      let asked := EvGetFile (message_voice_file_id update) (Ok file) in
      download_result env (w_trace w1 ++ [asked]) file
        (temp_ogg_path BASE_DIR) = (written, Some e) ->
      is_Exception e = true ->
      let failed :=
        EvDownload file (temp_ogg_path BASE_DIR) written (Some e) in
      let line := EvLog ERROR ("Audio Processing Error: " +:+ exn_str e) in
      reply_text_result env (w_trace w1 ++ [asked; failed; line]) chat
        audio_error None = None ->
      (run w).1 = Ok tt /\
      delivered (emitted run w) = [processing_audio; audio_error] /\
      Forall (fun ev => is_completion ev = false) (emitted run w)).
Proof.
  intros chat w1 run Hpa Hr Hae. split.
  - intros e w2 Hdt He line r.
    destruct (voice_failure_run update w w2 _ _ e Hpa Hr Hdt He Hae)
      as (fs & removal & Hrun & Hrem).
    fold chat line r run in Hrun. rewrite Hrun. simpl.
    split; [done|]. split; [by exists removal|].
    pose proof (trace_emitted
                  (download_and_transcribe env str_format TEXTS BASE_DIR update)
                  w1) as Ht.
    rewrite Hdt in Ht. simpl in Ht.
    erewrite (emitted_app run w); [|rewrite Hrun; simpl; rewrite Ht; simpl;
                                    rewrite <- !app_assoc; reflexivity].
    constructor; [done|].
    apply Forall_app. split.
    + assert (emits_only (fun ev => is_completion ev = false)
                (download_and_transcribe env str_format TEXTS BASE_DIR update))
        as H by (emits_only_tac; done).
      apply H.
    + constructor; [done|]. constructor; [done|].
      eapply Forall_impl; [exact Hrem|]. by intros ? <-.
  - intros file written e Hg asked Hd He failed line Hreply.
    pose proof (download_failure_run update w1 file written e Hg Hd) as Hdt.
    destruct (voice_failure_run update w _ _ _ e Hpa Hr Hdt He Hae)
      as (fs & removal & Hrun & Hrem).
    fold chat run in Hrun. subst asked failed line. unfold w1 in *.
    simpl in Hrun. simpl in Hreply.
    repeat rewrite <- app_assoc in Hrun.
    repeat rewrite <- app_assoc in Hreply.
    simpl in Hrun. simpl in Hreply.
    rewrite Hreply in Hrun.
    split; [by rewrite Hrun|].
    match type of Hrun with
    | _ = (_, {| w_trace :=
                   _ ++ ?a :: ?b :: ?c :: ?d :: ?f :: removal |}) =>
        rewrite (emitted_app run w ([a; b; c; d; f] ++ removal))
          by (rewrite Hrun; reflexivity)
    end.
    split.
    + by rewrite delivered_app, (delivered_removals _ _ Hrem).
    + apply Forall_app. split; [by repeat constructor|].
      eapply Forall_impl; [exact Hrem|]. by intros ? <-.
Qed.

(** C7, as the code has it: the typing indicator is awaited like any other
    call.  When its emission raises, the exception leaves the handler at once:
    nothing is passed to the generation routine and nothing is sent to the
    user.  The text is forwarded when the emission succeeded. *)
Theorem typing_indicator_failure_ends_text_handler
        (update : Update) (w : world) :
  let chat := effective_chat_id update in
  let r := send_chat_action_result env (w_trace w) chat "typing" in
  handle_text_message env str_format TEXTS update w =
  match r with
  | Some e => (Raise e, log_to w [EvChatAction chat "typing" (Some e)])
  | None =>
      generate_jungian_response env str_format TEXTS (message_text update)
        update (log_to w [EvChatAction chat "typing" None])
  end.
Proof.
  intros chat r. unfold handle_text_message, bind.
  rewrite send_chat_action_run. cbv zeta. fold chat r.
  by destruct r.
Qed.

(** C8, as the code has it: start-up fails when an API key is missing or
    empty, or when the resource file is absent or is not JSON.  The keys of
    the decoded bundle are not looked at: any decoded bundle is accepted, and
    a key that is absent raises [KeyError] where a handler subscripts it. *)
Theorem startup_does_not_check_bundle_keys
        (TELEGRAM_TOKEN GROQ_API_KEY : option string) (res : resource_file)
        (w : world) :
  (forall j,
      (module_init BASE_DIR TELEGRAM_TOKEN GROQ_API_KEY res w).1 = Ok j <->
      py_not TELEGRAM_TOKEN = false /\ py_not GROQ_API_KEY = false /\
      res = ResourceJson j) /\
  (forall section key w',
      bundle_lookup TEXTS section key = None ->
      texts_get TEXTS section key w' =
      (Raise (KeyError (missing_key TEXTS section key)), w')).
Proof.
  split.
  - intros j. unfold module_init, load_texts, open_json_load.
    destruct (py_not TELEGRAM_TOKEN), (py_not GROQ_API_KEY); simpl;
      try (split; [discriminate | intros (? & ? & ?); discriminate]).
    destruct res as [|msg|e|j']; simpl.
    + split; [discriminate | intros (_ & _ & ?); discriminate].
    + split; [discriminate | intros (_ & _ & ?); discriminate].
    + destruct e; simpl;
        (split; [discriminate | intros (_ & _ & ?); discriminate]).
    + split; [intros [= ->]; done | intros (_ & _ & [= ->]); done].
  - intros section key w' H. by rewrite texts_get_run, H.
Qed.

(** C9: in the trace of one voice update the steps come in the order of the
    handler: no download starts before the processing notice was delivered,
    no transcription is asked for before a download completed, no completion
    is asked for before a transcription came back, and every rich-mode reply
    sent after the completion call carries the answer of that call with the
    footer appended. *)
Theorem voice_steps_run_in_sequence
        (update : Update) (w : world) (processing_audio : string) :
  bundle_lookup TEXTS "messages" "processing_audio" = Some processing_audio ->
  let evs :=
    emitted (handle_voice_message env str_format TEXTS BASE_DIR update) w in
  precedes (notice_delivered processing_audio) is_download evs /\
  precedes download_done is_transcription evs /\
  precedes transcription_done is_completion evs /\
  rich_after_completion TEXTS evs.
Proof.
  intros Hpa evs. subst evs.
  destruct (reply_text_result env (w_trace w) (effective_chat_id update)
              processing_audio None) as [e|] eqn:Hr.
  { rewrite (handle_voice_message_emitted_rejected _ _ _ _ Hpa Hr).
    repeat split; try (apply precedes_free; by repeat constructor).
    apply rich_after_completion_free. by repeat constructor. }
  rewrite (handle_voice_message_emitted _ _ _ Hpa Hr).
  set (w1 := log_to w _).
  set (steps := download_and_transcribe env str_format TEXTS BASE_DIR update).
  set (body := bind steps _).
  set (guarded := try_except body _).
  destruct (download_and_transcribe_order update w1) as [Horder Hheard].
  fold steps in Horder, Hheard.
  assert (forall P,
             (forall e, emits_only P (on_audio_error env TEXTS e update)) ->
             emits_only P (cleanup BASE_DIR) ->
             Forall P
               (match (body w1).1 with
                | Ok _ => []
                | Raise e =>
                    if is_Exception e
                    then emitted (on_audio_error env TEXTS e update) (body w1).2
                    else []
                end ++ emitted (cleanup BASE_DIR) (guarded w1).2))
    as Htail.
  { intros P Hh Hc. apply Forall_app. split; [|apply Hc].
    destruct (body w1).1 as [|e]; [constructor|].
    destruct (is_Exception e); [apply Hh|constructor]. }
  assert (forall P,
             (forall text,
                 emits_only P
                   (generate_jungian_response env str_format TEXTS text update)) ->
             Forall P
               (match (steps w1).1 with
                | Ok text =>
                    emitted (generate_jungian_response env str_format TEXTS
                               text update) (steps w1).2
                | Raise _ => []
                end))
    as Hgen.
  { intros P Hg. destruct (steps w1).1; [apply Hg|constructor]. }
  split; [|split; [|split]].
  - apply precedes_cons_seen; [|done].
    simpl. by apply bool_decide_eq_true_2.
  - apply precedes_cons_skip; [done|].
    apply precedes_app_free.
    + apply precedes_app_free; [exact Horder|].
      apply Hgen. intros text. emits_only_tac; done.
    + apply Htail; emits_only_tac; done.
  - apply precedes_cons_skip; [done|].
    apply precedes_app_free.
    + assert (Forall (fun e => is_completion e = false) (emitted steps w1))
        as Hquiet.
      { assert (emits_only (fun e => is_completion e = false) steps) as H
            by (unfold steps; emits_only_tac; done).
        apply H. }
      destruct (steps w1).1 as [text|e] eqn:Hres.
      * apply precedes_app_seen; [by apply precedes_free|].
        by eapply Hheard.
      * rewrite app_nil_r. by apply precedes_free.
    + apply Htail; emits_only_tac; done.
  - apply rich_after_completion_cons_skip; [done|].
    apply rich_after_completion_app_r.
    + apply rich_after_completion_app_l.
      * assert (emits_only (fun e => is_completion e = false) steps) as H
            by (unfold steps; emits_only_tac; done).
        apply H.
      * destruct (steps w1).1;
          [apply generate_jungian_response_rich_after_completion|].
        apply rich_after_completion_free. constructor.
    + apply Htail; emits_only_tac; done.
Qed.

(** C10: whatever the update and whatever the outside world answers, every
    file the voice handler downloads to, opens or removes is the one file
    [BASE_DIR / "temp_voice.ogg"]; the path does not depend on the update. *)
Theorem voice_handler_path_is_constant (update : Update) (w : world) :
  Forall (eq (path_div BASE_DIR "temp_voice.ogg"))
    (paths_used
       (emitted (handle_voice_message env str_format TEXTS BASE_DIR update)
          w)).
Proof.
  assert (emits_only
            (fun ev => forall p, event_path ev = Some p ->
                                 path_div BASE_DIR "temp_voice.ogg" = p)
            (handle_voice_message env str_format TEXTS BASE_DIR update)) as H.
  { emits_only_tac; simpl; unfold temp_ogg_path; congruence. }
  specialize (H w). unfold paths_used.
  induction H as [|ev evs Hev _ IH]; simpl; [constructor|].
  destruct (event_path ev) as [p|] eqn:E; simpl; [|exact IH].
  constructor; [by apply Hev|exact IH].
Qed.

(** ** Further properties *)

(** *** The disk *)

#[export] Instance keeps_disk_only_touches {A} p (m : M A) :
  KeepsDisk m -> OnlyTouches p m.
Proof. intros H w q _. by rewrite H. Qed.

#[export] Instance ret_keeps_disk {A} (a : A) : KeepsDisk (ret a).
Proof. done. Qed.

#[export] Instance raise_keeps_disk {A} e : KeepsDisk (@raise A e).
Proof. done. Qed.

#[export] Instance lift_keeps_disk {A} (r : result A) : KeepsDisk (lift r).
Proof. by destruct r. Qed.

#[export] Instance bind_keeps_disk {A B} (m : M A) (k : A -> M B) :
  KeepsDisk m -> (forall a, KeepsDisk (k a)) -> KeepsDisk (bind m k).
Proof.
  intros Hm Hk w. unfold bind. specialize (Hm w).
  destruct (m w) as [[a|e] w1]; simpl in *; [|done].
  by rewrite Hk.
Qed.

#[export] Instance try_except_keeps_disk {A} (body : M A) handler :
  KeepsDisk body -> (forall e, KeepsDisk (handler e)) ->
  KeepsDisk (try_except body handler).
Proof.
  intros Hb Hh w. unfold try_except. specialize (Hb w).
  destruct (body w) as [[a|e] w1]; simpl in *; [done|].
  destruct (is_Exception e); [by rewrite Hh|done].
Qed.

#[export] Instance texts_get_keeps_disk s k : KeepsDisk (texts_get TEXTS s k).
Proof. intros w. by rewrite texts_get_run. Qed.

#[export] Instance reply_text_keeps_disk u text mode :
  KeepsDisk (reply_text env u text mode).
Proof. intros w. by rewrite reply_text_run. Qed.

#[export] Instance send_chat_action_keeps_disk chat action :
  KeepsDisk (send_chat_action env chat action).
Proof. intros w. by rewrite send_chat_action_run. Qed.

#[export] Instance logger_keeps_disk lvl msg : KeepsDisk (logger lvl msg).
Proof. done. Qed.

#[export] Instance build_full_response_keeps_disk t :
  KeepsDisk (build_full_response env str_format TEXTS t).
Proof.
  intros w. rewrite build_full_response_run. cbv zeta.
  by repeat case_match.
Qed.

#[export] Instance safe_send_keeps_disk full u : KeepsDisk (safe_send env full u).
Proof. unfold safe_send. apply _. Qed.

#[export] Instance on_generation_error_keeps_disk e u :
  KeepsDisk (on_generation_error env TEXTS e u).
Proof. unfold on_generation_error. apply _. Qed.

#[export] Instance on_audio_error_keeps_disk e u :
  KeepsDisk (on_audio_error env TEXTS e u).
Proof. unfold on_audio_error. apply _. Qed.

#[export] Instance generate_jungian_response_keeps_disk t u :
  KeepsDisk (generate_jungian_response env str_format TEXTS t u).
Proof. unfold generate_jungian_response. apply _. Qed.

#[export] Instance bind_only_touches {A B} p (m : M A) (k : A -> M B) :
  OnlyTouches p m -> (forall a, OnlyTouches p (k a)) ->
  OnlyTouches p (bind m k).
Proof.
  intros Hm Hk w q Hq. unfold bind. specialize (Hm w q Hq).
  destruct (m w) as [[a|e] w1]; simpl in *; [|done].
  by rewrite Hk.
Qed.

#[export] Instance try_except_only_touches {A} p (body : M A) handler :
  OnlyTouches p body -> (forall e, OnlyTouches p (handler e)) ->
  OnlyTouches p (try_except body handler).
Proof.
  intros Hb Hh w q Hq. unfold try_except. specialize (Hb w q Hq).
  destruct (body w) as [[a|e] w1]; simpl in *; [done|].
  destruct (is_Exception e); [by rewrite Hh|done].
Qed.

#[export] Instance try_finally_only_touches {A} p (body : M A) fin :
  OnlyTouches p body -> OnlyTouches p fin ->
  OnlyTouches p (try_finally body fin).
Proof.
  intros Hb Hf w q Hq. unfold try_finally. specialize (Hb w q Hq).
  destruct (body w) as [r w1]; simpl in *.
  specialize (Hf w1 q Hq).
  destruct (fin w1) as [[[]|e] w2]; simpl in *; congruence.
Qed.

#[export] Instance download_and_transcribe_only_touches u :
  OnlyTouches (temp_ogg_path BASE_DIR)
    (download_and_transcribe env str_format TEXTS BASE_DIR u).
Proof.
  intros w q Hq. rewrite download_and_transcribe_run. cbv zeta.
  repeat case_match; simpl; try done;
    by rewrite lookup_insert_ne.
Qed.

#[export] Instance cleanup_only_touches :
  OnlyTouches (temp_ogg_path BASE_DIR) (cleanup BASE_DIR).
Proof.
  intros w q Hq. unfold cleanup, path_exists, os_remove, bind, ret; simpl.
  destruct (w_fs w !! temp_ogg_path BASE_DIR) as [d|] eqn:E.
  - rewrite bool_decide_eq_true_2 by eauto. rewrite E; simpl.
    by apply lookup_delete_ne.
  - by rewrite bool_decide_eq_false_2 by (intros [? ?]; congruence).
Qed.

(** X1: only the voice handler works on the disk, and only on its one file.
    The two commands, the text handler and the generation routine leave the
    disk exactly as it was; the voice handler may create and remove
    [BASE_DIR / "temp_voice.ogg"] and leaves every other file untouched,
    however the run ends. *)
Theorem handlers_touch_no_file_but_temp_voice (update : Update) (w : world) :
  w_fs (start_command env TEXTS update w).2 = w_fs w /\
  w_fs (privacy_command env TEXTS update w).2 = w_fs w /\
  w_fs (handle_text_message env str_format TEXTS update w).2 = w_fs w /\
  (forall text,
      w_fs (generate_jungian_response env str_format TEXTS text update w).2
      = w_fs w) /\
  (forall q,
      q <> temp_ogg_path BASE_DIR ->
      w_fs (handle_voice_message env str_format TEXTS BASE_DIR update w).2 !! q
      = w_fs w !! q).
Proof.
  split; [|split; [|split; [|split]]].
  - apply (keeps_disk (m := start_command env TEXTS update)).
  - apply (keeps_disk (m := privacy_command env TEXTS update)).
  - apply (keeps_disk (m := handle_text_message env str_format TEXTS update)).
  - intros text. apply keeps_disk.
  - intros q Hq.
    by apply (only_touches
                (m := handle_voice_message env str_format TEXTS BASE_DIR update)).
Qed.

(** *** The generation routine *)

(** X2: when the completion endpoint raises an error, nothing is sent in
    rich mode: the error is logged and the [generic_error] text is sent with
    the default parse mode, and the routine ends with the outcome of that one
    send. *)
Theorem completion_failure_is_answered_with_generic_error
        (user_text : string) (update : Update) (w : world)
        (template wrapped system_prompt generic_error : string) (e : exn) :
  let chat := effective_chat_id update in
  let messages :=
    [ {| role := "system"; content := system_prompt |};
      {| role := "user"; content := wrapped |} ] in
  let call :=
    EvCompletion messages "llama-3.3-70b-versatile" (Qmake 7 10) (Raise e) in
  let line := EvLog ERROR ("LLM Generation Error: " +:+ exn_str e) in
  bundle_lookup TEXTS "prompts" "user_input_wrapper" = Some template ->
  str_format template "user_input" user_text = Ok wrapped ->
  bundle_lookup TEXTS "prompts" "system_prompt" = Some system_prompt ->
  completions_create_result env (w_trace w) messages
    "llama-3.3-70b-versatile" (Qmake 7 10) = Raise e ->
  is_Exception e = true ->
  bundle_lookup TEXTS "errors" "generic_error" = Some generic_error ->
  let notice :=
    reply_text_result env (w_trace w ++ [call; line]) chat generic_error None in
  generate_jungian_response env str_format TEXTS user_text update w =
  (opt_result notice,
   log_to w [call; line; EvReply chat generic_error None notice]).
Proof.
  intros chat messages call line Ht Hf Hs Hc He Hg notice.
  rewrite generate_jungian_response_run, build_full_response_run.
  rewrite Ht, Hf, Hs. cbv zeta. fold messages. rewrite Hc, He.
  rewrite on_generation_error_run, Hg. cbv zeta.
  fold chat call line. norm_world. done.
Qed.

(** X3: a completion that comes back without any choice makes
    [choices[0]] raise [IndexError]; it is handled like a failed call: the
    log line names the index error and the user gets [generic_error]. *)
Theorem empty_choice_list_is_answered_with_generic_error
        (user_text : string) (update : Update) (w : world)
        (template wrapped system_prompt generic_error : string) :
  let chat := effective_chat_id update in
  let messages :=
    [ {| role := "system"; content := system_prompt |};
      {| role := "user"; content := wrapped |} ] in
  let call :=
    EvCompletion messages "llama-3.3-70b-versatile" (Qmake 7 10) (Ok []) in
  let line := EvLog ERROR "LLM Generation Error: list index out of range" in
  bundle_lookup TEXTS "prompts" "user_input_wrapper" = Some template ->
  str_format template "user_input" user_text = Ok wrapped ->
  bundle_lookup TEXTS "prompts" "system_prompt" = Some system_prompt ->
  completions_create_result env (w_trace w) messages
    "llama-3.3-70b-versatile" (Qmake 7 10) = Ok [] ->
  bundle_lookup TEXTS "errors" "generic_error" = Some generic_error ->
  let notice :=
    reply_text_result env (w_trace w ++ [call; line]) chat generic_error None in
  generate_jungian_response env str_format TEXTS user_text update w =
  (opt_result notice,
   log_to w [call; line; EvReply chat generic_error None notice]).
Proof.
  intros chat messages call line Ht Hf Hs Hc Hg notice.
  rewrite generate_jungian_response_run, build_full_response_run.
  rewrite Ht, Hf, Hs. cbv zeta. fold messages. rewrite Hc.
  cbn [is_Exception].
  rewrite on_generation_error_run, Hg. cbv zeta.
  fold chat call. norm_world. done.
Qed.

(** X4: the content of the first choice is not checked: when it is [None],
    the text sent to the user is the word [None] followed by the footer. *)
Theorem missing_content_is_sent_as_None
        (user_text : string) (update : Update) (w : world)
        (template wrapped system_prompt footer : string)
        (others : list (option string)) :
  let chat := effective_chat_id update in
  let messages :=
    [ {| role := "system"; content := system_prompt |};
      {| role := "user"; content := wrapped |} ] in
  let call :=
    EvCompletion messages "llama-3.3-70b-versatile" (Qmake 7 10)
      (Ok (None :: others)) in
  bundle_lookup TEXTS "prompts" "user_input_wrapper" = Some template ->
  str_format template "user_input" user_text = Ok wrapped ->
  bundle_lookup TEXTS "prompts" "system_prompt" = Some system_prompt ->
  completions_create_result env (w_trace w) messages
    "llama-3.3-70b-versatile" (Qmake 7 10) = Ok (None :: others) ->
  bundle_lookup TEXTS "messages" "footer_disclaimer" = Some footer ->
  reply_text_result env (w_trace w ++ [call]) chat ("None" +:+ footer)
    (Some "Markdown") = None ->
  generate_jungian_response env str_format TEXTS user_text update w =
  (Ok tt,
   log_to w [call; EvReply chat ("None" +:+ footer) (Some "Markdown") None]).
Proof.
  intros chat messages call Ht Hf Hs Hc Hfoot Hr.
  rewrite generate_jungian_response_run, build_full_response_run.
  rewrite Ht, Hf, Hs. cbv zeta. fold messages. rewrite Hc, Hfoot.
  rewrite safe_send_run. cbv zeta. fold chat call.
  cbn [py_str log_to w_trace]. rewrite Hr. norm_world. done.
Qed.

(** X5: without the [user_input_wrapper] or the [system_prompt] key the
    completion endpoint is never called; all the user can get is the
    [generic_error] text. *)
Theorem missing_prompt_key_skips_completion
        (user_text : string) (update : Update) (w : world) :
  bundle_lookup TEXTS "prompts" "user_input_wrapper" = None \/
  bundle_lookup TEXTS "prompts" "system_prompt" = None ->
  let evs :=
    emitted (generate_jungian_response env str_format TEXTS user_text update)
      w in
  Forall (fun ev => is_completion ev = false) evs /\
  (delivered evs = [] \/
   exists generic_error,
     bundle_lookup TEXTS "errors" "generic_error" = Some generic_error /\
     delivered evs = [generic_error]).
Proof.
  intros Hkey evs. subst evs. unfold emitted.
  rewrite generate_jungian_response_run, build_full_response_run. cbv zeta.
  repeat (first [ rewrite safe_send_run | rewrite on_generation_error_run
                | case_inner ]; cbv zeta).
  all: simplify_eq; try (destruct Hkey; congruence).
  all: emitted_list.
  all: split; [by repeat constructor|].
  all: unfold delivered; simpl; repeat case_match; simplify_eq.
  all: first [ by left | right; eexists; split; reflexivity ].
Qed.

(** X6: the footer is looked up after the completion call.  When the
    [footer_disclaimer] key is absent the endpoint is called all the same,
    and its answer is dropped: the [KeyError] is logged and the user gets
    [generic_error]. *)
Theorem missing_footer_discards_answer
        (user_text : string) (update : Update) (w : world)
        (template wrapped system_prompt generic_error : string)
        (c : option string) (others : list (option string)) :
  let chat := effective_chat_id update in
  let messages :=
    [ {| role := "system"; content := system_prompt |};
      {| role := "user"; content := wrapped |} ] in
  let call :=
    EvCompletion messages "llama-3.3-70b-versatile" (Qmake 7 10)
      (Ok (c :: others)) in
  let line :=
    EvLog ERROR
      ("LLM Generation Error: '"
         +:+ missing_key TEXTS "messages" "footer_disclaimer" +:+ "'") in
  bundle_lookup TEXTS "prompts" "user_input_wrapper" = Some template ->
  str_format template "user_input" user_text = Ok wrapped ->
  bundle_lookup TEXTS "prompts" "system_prompt" = Some system_prompt ->
  completions_create_result env (w_trace w) messages
    "llama-3.3-70b-versatile" (Qmake 7 10) = Ok (c :: others) ->
  bundle_lookup TEXTS "messages" "footer_disclaimer" = None ->
  bundle_lookup TEXTS "errors" "generic_error" = Some generic_error ->
  let notice :=
    reply_text_result env (w_trace w ++ [call; line]) chat generic_error None in
  generate_jungian_response env str_format TEXTS user_text update w =
  (opt_result notice,
   log_to w [call; line; EvReply chat generic_error None notice]).
Proof.
  intros chat messages call line Ht Hf Hs Hc Hfoot Hg notice.
  rewrite generate_jungian_response_run, build_full_response_run.
  rewrite Ht, Hf, Hs. cbv zeta. fold messages. rewrite Hc, Hfoot.
  cbn [is_Exception].
  rewrite on_generation_error_run, Hg. cbv zeta.
  fold chat call. norm_world. done.
Qed.

(** X7: an exception of the Markdown send that is not below [Exception], a
    cancellation of the task for one, goes through both [except] clauses:
    there is no plain-mode retry and no error notice, and the routine ends
    with that exception. *)
Theorem cancelled_rich_send_is_not_retried
        (user_text : string) (update : Update) (w w1 : world)
        (full : string) (e : exn) :
  let chat := effective_chat_id update in
  build_full_response env str_format TEXTS user_text w = (Ok full, w1) ->
  reply_text_result env (w_trace w1) chat full (Some "Markdown") = Some e ->
  is_Exception e = false ->
  generate_jungian_response env str_format TEXTS user_text update w =
  (Raise e, log_to w1 [EvReply chat full (Some "Markdown") (Some e)]).
Proof.
  intros chat Hb Hr He.
  rewrite generate_jungian_response_run, Hb, safe_send_run. cbv zeta.
  fold chat. by rewrite Hr, He, He.
Qed.

(** X8: the error clause itself needs the [generic_error] key.  When that
    key is absent, an error of the generation is still logged, but nothing
    is sent and the routine ends with a [KeyError]. *)
Theorem missing_generic_error_key_raises_KeyError
        (user_text : string) (update : Update) (w w1 : world) (e : exn) :
  build_full_response env str_format TEXTS user_text w = (Raise e, w1) ->
  is_Exception e = true ->
  bundle_lookup TEXTS "errors" "generic_error" = None ->
  generate_jungian_response env str_format TEXTS user_text update w =
  (Raise (KeyError (missing_key TEXTS "errors" "generic_error")),
   log_to w1 [EvLog ERROR ("LLM Generation Error: " +:+ exn_str e)]).
Proof.
  intros Hb He Hg.
  rewrite generate_jungian_response_run, Hb, He.
  by rewrite on_generation_error_run, Hg.
Qed.

Lemma generate_jungian_response_delivered user_text u w :
  let run := generate_jungian_response env str_format TEXTS user_text u in
  match (run w).1 with
  | Ok _ => length (delivered (emitted run w)) = 1
  | Raise _ => delivered (emitted run w) = []
  end.
Proof.
  cbv zeta. unfold emitted.
  rewrite generate_jungian_response_run, build_full_response_run. cbv zeta.
  repeat (first [ rewrite safe_send_run | rewrite on_generation_error_run
                | case_inner ]; cbv zeta; cbn [fst snd]; unfold opt_result).
  all: simplify_eq; emitted_list; reflexivity.
Qed.

(** X9: the generation routine answers exactly once or not at all: when it
    returns, one message has reached the user; when it ends with an
    exception, none has. *)
Theorem generation_delivers_once_or_raises
        (user_text : string) (update : Update) (w : world) :
  let run := generate_jungian_response env str_format TEXTS user_text update in
  match (run w).1 with
  | Ok _ => length (delivered (emitted run w)) = 1
  | Raise _ => delivered (emitted run w) = []
  end.
Proof. apply generate_jungian_response_delivered. Qed.

Lemma count_events_app kind l k :
  count_events kind (l ++ k) = count_events kind l + count_events kind k.
Proof. unfold count_events. by rewrite List.filter_app, length_app. Qed.

Lemma count_events_none kind l :
  Forall (fun ev => kind ev = false) l -> count_events kind l = 0.
Proof.
  unfold count_events.
  induction 1 as [|ev evs Hev _ IH]; simpl; [done|]. by rewrite Hev.
Qed.

Lemma handle_text_message_emitted u w :
  emitted (handle_text_message env str_format TEXTS u) w =
  let chat := effective_chat_id u in
  let r := send_chat_action_result env (w_trace w) chat "typing" in
  EvChatAction chat "typing" r ::
    match r with
    | Some _ => []
    | None =>
        emitted
          (generate_jungian_response env str_format TEXTS (message_text u) u)
          (log_to w [EvChatAction chat "typing" None])
    end.
Proof.
  unfold handle_text_message. rewrite emitted_bind by apply _.
  rewrite (emitted_app _ w [_]) by (by rewrite send_chat_action_run).
  rewrite send_chat_action_run. cbv zeta.
  by destruct (send_chat_action_result env (w_trace w) _ "typing").
Qed.

(** X10: the completion endpoint is called at most once for an update,
    text or voice: a failed call is not repeated. *)
Theorem at_most_one_completion_call (update : Update) (w : world) :
  (forall text,
      count_events is_completion
        (emitted (generate_jungian_response env str_format TEXTS text update) w)
      <= 1) /\
  count_events is_completion
    (emitted (handle_text_message env str_format TEXTS update) w) <= 1 /\
  count_events is_completion
    (emitted (handle_voice_message env str_format TEXTS BASE_DIR update) w)
  <= 1.
Proof.
  assert (forall text w',
             count_events is_completion
               (emitted (generate_jungian_response env str_format TEXTS text
                           update) w') <= 1) as Hgen.
  { intros text w'. unfold emitted.
    rewrite generate_jungian_response_run, build_full_response_run. cbv zeta.
    repeat (first [ rewrite safe_send_run | rewrite on_generation_error_run
                  | case_inner ]; cbv zeta).
    all: simplify_eq; emitted_list; unfold count_events; simpl; lia. }
  split; [intros text; apply Hgen|]. split.
  - rewrite handle_text_message_emitted. cbv zeta.
    destruct (send_chat_action_result env (w_trace w) _ "typing").
    + unfold count_events. simpl. lia.
    + change (?e :: ?l) with ([e] ++ l). rewrite count_events_app.
      specialize (Hgen (message_text update)
                    (log_to w [EvChatAction (effective_chat_id update)
                                 "typing" None])).
      unfold count_events at 1. simpl. lia.
  - destruct (bundle_lookup TEXTS "messages" "processing_audio")
      as [pa|] eqn:Hpa.
    2:{ rewrite (emitted_app _ w []); [unfold count_events; simpl; lia|].
        unfold handle_voice_message, bind. rewrite texts_get_run, Hpa.
        by rewrite app_nil_r. }
    destruct (reply_text_result env (w_trace w) (effective_chat_id update)
                pa None) as [e|] eqn:Hr.
    { rewrite (handle_voice_message_emitted_rejected _ _ _ _ Hpa Hr).
      unfold count_events; simpl; lia. }
    rewrite (handle_voice_message_emitted _ _ _ Hpa Hr).
    set (w1 := log_to w _).
    set (steps := download_and_transcribe env str_format TEXTS BASE_DIR update).
    set (body := bind steps _).
    set (guarded := try_except body _).
    change (?e :: ?l) with ([e] ++ l).
    rewrite !count_events_app.
    assert (count_events is_completion (emitted steps w1) = 0) as ->.
    { apply count_events_none.
      assert (emits_only (fun ev => is_completion ev = false) steps) as H
          by (unfold steps; emits_only_tac; done).
      apply H. }
    assert (count_events is_completion
              (emitted (cleanup BASE_DIR) (guarded w1).2) = 0) as ->.
    { apply count_events_none.
      assert (emits_only (fun ev => is_completion ev = false)
                (cleanup BASE_DIR)) as H by (emits_only_tac; done).
      apply H. }
    assert (count_events is_completion
              match (body w1).1 with
              | Ok _ => []
              | Raise e =>
                  if is_Exception e
                  then emitted (on_audio_error env TEXTS e update) (body w1).2
                  else []
              end = 0) as ->.
    { apply count_events_none.
      destruct (body w1).1 as [|e]; [constructor|].
      destruct (is_Exception e); [|constructor].
      assert (emits_only (fun ev => is_completion ev = false)
                (on_audio_error env TEXTS e update)) as H
          by (emits_only_tac; done).
      apply H. }
    unfold count_events at 1. simpl.
    destruct (steps w1).1 as [text|e]; [|unfold count_events; simpl; lia].
    specialize (Hgen text (steps w1).2). lia.
Qed.

(** *** The voice handler *)

Lemma download_and_transcribe_leaves_file u w text w2 :
  download_and_transcribe env str_format TEXTS BASE_DIR u w = (Ok text, w2) ->
  is_Some (w_fs w2 !! temp_ogg_path BASE_DIR).
Proof.
  rewrite download_and_transcribe_run. cbv zeta.
  repeat case_match; intros [= <- <-]; simpl in *; eauto.
Qed.

(** X11: the generation routine runs inside the [try] of the voice handler.
    When it ends with an error (its own error notice could not be sent, or
    the [generic_error] key is absent), the voice handler reports an
    audio error: it logs the error, sends the [audio_error] text, removes the
    audio file and ends with the outcome of that send. *)
Theorem generation_error_in_voice_update_is_answered_with_audio_error
        (update : Update) (w w2 w3 : world)
        (processing_audio audio_error text : string) (e : exn) :
  let chat := effective_chat_id update in
  let w1 := log_to w [EvReply chat processing_audio None None] in
  let line := EvLog ERROR ("Audio Processing Error: " +:+ exn_str e) in
  bundle_lookup TEXTS "messages" "processing_audio" = Some processing_audio ->
  reply_text_result env (w_trace w) chat processing_audio None = None ->
  download_and_transcribe env str_format TEXTS BASE_DIR update w1
  = (Ok text, w2) ->
  generate_jungian_response env str_format TEXTS text update w2
  = (Raise e, w3) ->
  is_Exception e = true ->
  bundle_lookup TEXTS "errors" "audio_error" = Some audio_error ->
  let r := reply_text_result env (w_trace w3 ++ [line]) chat audio_error None in
  handle_voice_message env str_format TEXTS BASE_DIR update w =
  (opt_result r,
   {| w_fs := delete (temp_ogg_path BASE_DIR) (w_fs w2);
      w_trace := w_trace w3 ++
                 [line; EvReply chat audio_error None r;
                  EvRemove (temp_ogg_path BASE_DIR)] |}).
Proof.
  intros chat w1 line Hpa Hr Hdt Hgen He Hae r.
  rewrite (handle_voice_message_run _ _ _ Hpa Hr). fold chat w1.
  unfold try_finally, try_except. unfold bind at 1. rewrite Hdt, Hgen, He.
  rewrite on_audio_error_run, Hae. cbv zeta. fold chat line r.
  pose proof (download_and_transcribe_leaves_file _ _ _ _ Hdt) as Hfile.
  pose proof (keeps_disk
                (m := generate_jungian_response env str_format TEXTS text
                        update) w2) as Hdisk.
  rewrite Hgen in Hdisk. simpl in Hdisk.
  cbv beta iota.
  rewrite cleanup_run_present by (simpl; by rewrite Hdisk).
  norm_world. rewrite Hdisk. by destruct r.
Qed.

(** X12: a voice update in which the download, the transcription, the
    feedback reply and the generation routine all succeed ends normally,
    and the last thing the handler does, after the answer was sent, is to
    remove the audio file it downloaded. *)
Theorem successful_voice_update_removes_file_last
        (update : Update) (w w2 w3 : world)
        (processing_audio text : string) :
  let chat := effective_chat_id update in
  let w1 := log_to w [EvReply chat processing_audio None None] in
  bundle_lookup TEXTS "messages" "processing_audio" = Some processing_audio ->
  reply_text_result env (w_trace w) chat processing_audio None = None ->
  download_and_transcribe env str_format TEXTS BASE_DIR update w1
  = (Ok text, w2) ->
  generate_jungian_response env str_format TEXTS text update w2
  = (Ok tt, w3) ->
  handle_voice_message env str_format TEXTS BASE_DIR update w =
  (Ok tt,
   {| w_fs := delete (temp_ogg_path BASE_DIR) (w_fs w2);
      w_trace := w_trace w3 ++ [EvRemove (temp_ogg_path BASE_DIR)] |}).
Proof.
  intros chat w1 Hpa Hr Hdt Hgen.
  rewrite (handle_voice_message_run _ _ _ Hpa Hr). fold chat w1.
  unfold try_finally, try_except. unfold bind at 1. rewrite Hdt, Hgen.
  pose proof (download_and_transcribe_leaves_file _ _ _ _ Hdt) as Hfile.
  pose proof (keeps_disk
                (m := generate_jungian_response env str_format TEXTS text
                        update) w2) as Hdisk.
  rewrite Hgen in Hdisk. simpl in Hdisk.
  cbv beta iota.
  rewrite cleanup_run_present by (by rewrite Hdisk).
  by rewrite Hdisk.
Qed.

(** X13: an exception that is not below [Exception], a cancellation for
    one, raised while the audio is downloaded or transcribed is not answered:
    no error is logged and no [audio_error] text is sent.  The [finally]
    clause still runs, and the handler ends with that exception. *)
Theorem cancelled_voice_update_is_not_answered
        (update : Update) (w w2 : world) (processing_audio : string) (e : exn) :
  let chat := effective_chat_id update in
  let w1 := log_to w [EvReply chat processing_audio None None] in
  let run := handle_voice_message env str_format TEXTS BASE_DIR update in
  bundle_lookup TEXTS "messages" "processing_audio" = Some processing_audio ->
  reply_text_result env (w_trace w) chat processing_audio None = None ->
  download_and_transcribe env str_format TEXTS BASE_DIR update w1
  = (Raise e, w2) ->
  is_Exception e = false ->
  (run w).1 = Raise e /\
  exists removal,
    w_trace (run w).2 = w_trace w2 ++ removal /\
    Forall (eq (EvRemove (temp_ogg_path BASE_DIR))) removal.
Proof.
  intros chat w1 run Hpa Hr Hdt He.
  destruct (cleanup_run w2) as (fs & removal & Hc & Hrem).
  assert (run w = (Raise e, {| w_fs := fs;
                               w_trace := w_trace w2 ++ removal |})) as ->.
  { unfold run. rewrite (handle_voice_message_run _ _ _ Hpa Hr).
    fold chat w1. unfold try_finally, try_except, bind.
    by rewrite Hdt, He, Hc. }
  split; [done|]. by exists removal.
Qed.

(** X14: the transcription endpoint is given the bytes the download wrote:
    when the download completed and wrote [data], the request that follows
    carries exactly [data], under the name of the temporary file, with the
    Whisper model, Italian as language and the JSON response format. *)
Theorem transcription_receives_downloaded_bytes
        (update : Update) (w : world) (file : string)
        (data : list Byte.byte) :
  let temp := temp_ogg_path BASE_DIR in
  let asked := EvGetFile (message_voice_file_id update) (Ok file) in
  let fetched := EvDownload file temp (Some data) None in
  let opened := EvOpen temp "rb" in
  get_file_result env (w_trace w) (message_voice_file_id update) = Ok file ->
  download_result env (w_trace w ++ [asked]) file temp = (Some data, None) ->
  let r :=
    transcriptions_create_result env (w_trace w ++ [asked; fetched; opened])
      (path_str temp) data "whisper-large-v3" "it" "json" in
  exists rest,
    emitted (download_and_transcribe env str_format TEXTS BASE_DIR update) w =
    [ asked; fetched; opened;
      EvTranscribe (path_str temp) data "whisper-large-v3" "it" "json" r ]
    ++ rest.
Proof.
  intros temp asked fetched opened Hg Hd r. unfold emitted.
  rewrite download_and_transcribe_run. cbv zeta. rewrite Hg.
  fold temp asked. rewrite Hd. cbn [fst snd]. fold fetched.
  cbn [w_fs]. rewrite lookup_insert_eq. fold opened.
  cbn [w_trace]. rewrite <- app_assoc. cbn [app]. fold r.
  repeat case_match; emitted_list; eexists; reflexivity.
Qed.

(** X15: whatever came before, a request to the completion endpoint holds
    two messages, the system prompt and the wrapped text of this update, so
    no earlier turn is ever sent along; the model and the temperature are
    fixed, and so are the parameters of a transcription request. *)
Theorem requests_are_as_written (update : Update) (w : world) :
  Forall (request_as_written BASE_DIR)
    (emitted (handle_text_message env str_format TEXTS update) w) /\
  Forall (request_as_written BASE_DIR)
    (emitted (handle_voice_message env str_format TEXTS BASE_DIR update) w).
Proof.
  split.
  - assert (emits_only (request_as_written BASE_DIR)
              (handle_text_message env str_format TEXTS update)) as H
        by (emits_only_tac; simpl; eauto).
    apply H.
  - assert (emits_only (request_as_written BASE_DIR)
              (handle_voice_message env str_format TEXTS BASE_DIR update)) as H
        by (emits_only_tac; simpl; eauto).
    apply H.
Qed.

(** X16: a voice update downloads at most once and asks for at most one
    transcription. *)
Theorem at_most_one_download_and_transcription (update : Update) (w : world) :
  let evs :=
    emitted (handle_voice_message env str_format TEXTS BASE_DIR update) w in
  count_events is_download evs <= 1 /\
  count_events is_transcription evs <= 1.
Proof.
  cbv zeta.
  destruct (bundle_lookup TEXTS "messages" "processing_audio")
    as [pa|] eqn:Hpa.
  2:{ rewrite (emitted_app _ w []); [unfold count_events; simpl; lia|].
      unfold handle_voice_message, bind. rewrite texts_get_run, Hpa.
      by rewrite app_nil_r. }
  destruct (reply_text_result env (w_trace w) (effective_chat_id update)
              pa None) as [e|] eqn:Hr.
  { rewrite (handle_voice_message_emitted_rejected _ _ _ _ Hpa Hr).
    unfold count_events; simpl; lia. }
  rewrite (handle_voice_message_emitted _ _ _ Hpa Hr).
  set (w1 := log_to w _).
  set (steps := download_and_transcribe env str_format TEXTS BASE_DIR update).
  set (body := bind steps _).
  set (guarded := try_except body _).
  change (?e :: ?l) with ([e] ++ l).
  rewrite !count_events_app.
  assert (forall kind,
             (forall text,
                 emits_only (fun ev => kind ev = false)
                   (generate_jungian_response env str_format TEXTS text
                      update)) ->
             (forall e,
                 emits_only (fun ev => kind ev = false)
                   (on_audio_error env TEXTS e update)) ->
             emits_only (fun ev => kind ev = false) (cleanup BASE_DIR) ->
             count_events kind
               match (steps w1).1 with
               | Ok text =>
                   emitted (generate_jungian_response env str_format TEXTS
                              text update) (steps w1).2
               | Raise _ => []
               end = 0 /\
             count_events kind
               match (body w1).1 with
               | Ok _ => []
               | Raise e =>
                   if is_Exception e
                   then emitted (on_audio_error env TEXTS e update) (body w1).2
                   else []
               end = 0 /\
             count_events kind (emitted (cleanup BASE_DIR) (guarded w1).2) = 0)
    as Hrest.
  { intros kind Hg Hh Hc. repeat split; apply count_events_none.
    - destruct (steps w1).1; [apply Hg|constructor].
    - destruct (body w1).1 as [|e]; [constructor|].
      destruct (is_Exception e); [apply Hh|constructor].
    - apply Hc. }
  assert (count_events is_download (emitted steps w1) <= 1 /\
          count_events is_transcription (emitted steps w1) <= 1) as [Hd Ht].
  { unfold steps, emitted. rewrite download_and_transcribe_run. cbv zeta.
    repeat case_match; emitted_list; unfold count_events; simpl; lia. }
  split.
  - destruct (Hrest is_download) as (-> & -> & ->);
      [intros; emits_only_tac; done..|].
    unfold count_events at 1. simpl. lia.
  - destruct (Hrest is_transcription) as (-> & -> & ->);
      [intros; emits_only_tac; done..|].
    unfold count_events at 1. simpl. lia.
Qed.

Lemma download_and_transcribe_delivered u w :
  let run := download_and_transcribe env str_format TEXTS BASE_DIR u in
  match (run w).1 with
  | Ok _ => length (delivered (emitted run w)) = 1
  | Raise _ => delivered (emitted run w) = []
  end.
Proof.
  cbv zeta. unfold emitted. rewrite download_and_transcribe_run. cbv zeta.
  repeat (case_inner; cbn [fst snd]); emitted_list; reflexivity.
Qed.

Lemma on_audio_error_delivered e u w :
  let run := on_audio_error env TEXTS e u in
  match (run w).1 with
  | Ok _ => length (delivered (emitted run w)) = 1
  | Raise _ => delivered (emitted run w) = []
  end.
Proof.
  cbv zeta. unfold emitted. rewrite on_audio_error_run. cbv zeta.
  repeat (case_inner; cbn [fst snd]; unfold opt_result);
    emitted_list; reflexivity.
Qed.

(** X18: a voice update the handler returns from was answered: the user got
    the processing notice first and then one or two more messages, never
    more. *)
Theorem voice_update_that_returns_was_answered
        (update : Update) (w : world) :
  let run := handle_voice_message env str_format TEXTS BASE_DIR update in
  (run w).1 = Ok tt ->
  exists processing_audio rest,
    bundle_lookup TEXTS "messages" "processing_audio" = Some processing_audio /\
    delivered (emitted run w) = processing_audio :: rest /\
    1 <= length rest <= 2.
Proof.
  intros run Hok.
  destruct (bundle_lookup TEXTS "messages" "processing_audio")
    as [pa|] eqn:Hpa.
  2:{ exfalso. revert Hok. unfold run, handle_voice_message, bind.
      by rewrite texts_get_run, Hpa. }
  destruct (reply_text_result env (w_trace w) (effective_chat_id update)
              pa None) as [e|] eqn:Hr.
  { exfalso. revert Hok. unfold run, handle_voice_message.
    unfold bind at 1. rewrite texts_get_run, Hpa.
    unfold bind at 1. rewrite reply_text_run. cbv zeta. by rewrite Hr. }
  exists pa. unfold run in *.
  rewrite (handle_voice_message_emitted _ _ _ Hpa Hr).
  rewrite (handle_voice_message_run _ _ _ Hpa Hr) in Hok.
  set (w1 := log_to w _) in *.
  set (steps := download_and_transcribe env str_format TEXTS BASE_DIR update)
    in *.
  set (body := bind steps _) in *.
  set (guarded := try_except body _) in *.
  eexists. split; [reflexivity|]. split; [reflexivity|].
  rewrite !delivered_app, !length_app.
  destruct (cleanup_run (guarded w1).2) as (fs & removal & Hc & Hrem).
  rewrite (emitted_app (cleanup BASE_DIR) (guarded w1).2 removal)
    by (by rewrite Hc).
  rewrite (delivered_removals _ _ Hrem).
  assert ((guarded w1).1 = Ok tt) as Hg.
  { revert Hok. unfold try_finally.
    destruct (guarded w1) as [r w']. simpl in Hc. by rewrite Hc. }
  clear Hok Hc.
  pose proof (download_and_transcribe_delivered update w1) as Hd.
  cbv zeta in Hd. fold steps in Hd.
  unfold guarded, try_except in Hg.
  assert (body w1 = match (steps w1).1 with
                    | Ok text =>
                        generate_jungian_response env str_format TEXTS text
                          update (steps w1).2
                    | Raise e => (Raise e, (steps w1).2)
                    end) as Hbody.
  { unfold body, bind. by destruct (steps w1) as [[text|e] w2]. }
  rewrite Hbody in Hg |- *. 
  destruct (steps w1).1 as [text|e].
  - pose proof (generate_jungian_response_delivered text update (steps w1).2)
      as Hgen. cbv zeta in Hgen.
    destruct (generate_jungian_response env str_format TEXTS text update
                (steps w1).2) as [[[]|e] w3] eqn:Hrun; simpl in *.
    + rewrite Hd, Hgen. simpl. lia.
    + destruct (is_Exception e); [|discriminate].
      pose proof (on_audio_error_delivered e update w3) as Hh.
      cbv zeta in Hh. rewrite Hg in Hh.
      rewrite Hd, Hgen, Hh. simpl. lia.
  - simpl in *. destruct (is_Exception e); [|discriminate].
    pose proof (on_audio_error_delivered e update (steps w1).2) as Hh.
    cbv zeta in Hh. rewrite Hg in Hh.
    rewrite Hd, Hh. simpl. lia.
Qed.

End Proofs.

(** ** The program on concrete inputs *)

(** C1 at a run whose download breaks off and leaves half a file behind. *)
Lemma temp_audio_absent_after_voice_handler_witness :
  w_fs empty_world !! temp_ogg_path sample_dir = None /\
  w_fs (handle_voice_message env_download_fails format_plain sample_texts
          sample_dir sample_update empty_world).2
    !! temp_ogg_path sample_dir = None.
Proof.
  split; [reflexivity|].
  apply (temp_audio_absent_after_voice_handler env_download_fails format_plain
           sample_texts sample_dir sample_update empty_world).
  left. reflexivity.
Defined.

(** The handler does not enter its [try] when the processing notice cannot be
    sent: a file left by an earlier run is then still there. *)
Example stale_file_survives_rejected_notice :
  is_Some
    (w_fs (handle_voice_message env_telegram_down format_plain sample_texts
             sample_dir sample_update stale_world).2
       !! temp_ogg_path sample_dir).
Proof. vm_compute. eauto. Qed.

(** C2 refuted: the plain-mode retry raises, and the routine returns normally
    after sending the generic error notice. *)
Lemma plain_retry_failure_does_not_reach_caller :
  generate_jungian_response env_only_error_notice format_plain sample_texts
    (message_text sample_update) sample_update empty_world =
  (Ok tt,
   log_to empty_world
     [ sample_call;
       EvReply 42 sample_full (Some "Markdown") (Some bad_markdown);
       sample_warning;
       EvReply 42 sample_full None (Some telegram_down);
       EvLog ERROR "LLM Generation Error: timed out";
       EvReply 42 "Errore." None None ]).
Proof. vm_compute. reflexivity. Qed.

Lemma plain_retry_failure_is_caught_by_outer_handler_witness :
  generate_jungian_response env_only_error_notice format_plain sample_texts
    (message_text sample_update) sample_update empty_world =
  (Ok tt,
   log_to (log_to empty_world [sample_call])
     [ EvReply 42 sample_full (Some "Markdown") (Some bad_markdown);
       sample_warning;
       EvReply 42 sample_full None (Some telegram_down);
       EvLog ERROR "LLM Generation Error: timed out";
       EvReply 42 "Errore." None None ]).
Proof.
  apply (plain_retry_failure_is_caught_by_outer_handler env_only_error_notice
           format_plain sample_texts (message_text sample_update)
           sample_update empty_world (log_to empty_world [sample_call])
           sample_full "Errore." bad_markdown telegram_down);
    reflexivity.
Defined.

(** C3 at a run in which Telegram rejects the Markdown send. *)
Lemma markdown_failure_retried_once_in_plain_witness :
  exists tail,
    w_trace (generate_jungian_response env_markdown_rejected format_plain
               sample_texts (message_text sample_update) sample_update
               empty_world).2
    = [sample_call] ++
      [ EvReply 42 sample_full (Some "Markdown") (Some bad_markdown);
        sample_warning;
        EvReply 42 sample_full None None ] ++ tail /\
    tail = [].
Proof.
  destruct (markdown_failure_retried_once_in_plain env_markdown_rejected
              format_plain sample_texts (message_text sample_update)
              sample_update empty_world (log_to empty_world [sample_call])
              sample_full bad_markdown eq_refl eq_refl eq_refl)
    as (tail & Htrace & Hnil & _).
  exists tail. split; [exact Htrace | exact (Hnil eq_refl)].
Defined.

(** C4 refuted: the welcome reply is rejected as Markdown and is not sent
    again; the exception leaves the handler. *)
Lemma welcome_reply_has_no_plain_fallback :
  start_command env_markdown_rejected sample_texts sample_update empty_world =
  (Raise bad_markdown,
   log_to empty_world
     [EvReply 42 "*Benvenuto*" (Some "Markdown") (Some bad_markdown)]).
Proof. vm_compute. reflexivity. Qed.

Lemma only_generated_response_has_plain_fallback_witness :
  start_command env_markdown_rejected sample_texts sample_update empty_world =
  (Raise bad_markdown,
   log_to empty_world
     [EvReply 42 "*Benvenuto*" (Some "Markdown") (Some bad_markdown)]) /\
  privacy_command env_markdown_rejected sample_texts sample_update empty_world =
  (Raise bad_markdown,
   log_to empty_world
     [EvReply 42 "_Privacy_" (Some "Markdown") (Some bad_markdown)]) /\
  generate_jungian_response env_markdown_rejected format_plain sample_texts
    (message_text sample_update) sample_update empty_world =
  (Ok tt,
   log_to (log_to empty_world [sample_call])
     [ EvReply 42 sample_full (Some "Markdown") (Some bad_markdown);
       sample_warning;
       EvReply 42 sample_full None None ]) /\
  handle_voice_message env_markdown_rejected format_plain sample_texts
    sample_dir sample_update empty_world =
  (Ok tt,
   {| w_fs := delete (temp_ogg_path sample_dir)
                (<[temp_ogg_path sample_dir := sample_audio]> ∅);
      w_trace :=
        [ EvReply 42 "Ascolto..." None None;
          EvGetFile "voice-1" (Ok "voice/file_1.oga");
          EvDownload "voice/file_1.oga" (temp_ogg_path sample_dir)
            (Some sample_audio) None;
          EvOpen (temp_ogg_path sample_dir) "rb";
          EvTranscribe "/srv/bot/temp_voice.ogg" sample_audio
            "whisper-large-v3" "it" "json" (Ok "ho sognato il mare");
          EvReply 42 "Ho capito: _ho sognato il mare_" (Some "Markdown")
            (Some bad_markdown);
          EvLog ERROR "Audio Processing Error: Can't parse entities";
          EvReply 42 "Audio non compreso." None None;
          EvRemove (temp_ogg_path sample_dir) ] |}).
Proof.
  destruct (only_generated_response_has_plain_fallback env_markdown_rejected
              format_plain sample_texts sample_dir sample_update)
    as (Hs & Hp & Hg & Hv).
  split; [|split; [|split]].
  - exact (Hs empty_world "*Benvenuto*" eq_refl).
  - exact (Hp empty_world "_Privacy_" eq_refl).
  - exact (Hg (message_text sample_update) empty_world
              (log_to empty_world [sample_call]) sample_full bad_markdown
              eq_refl eq_refl eq_refl eq_refl).
  - exact (Hv empty_world "Ascolto..." "Audio non compreso."
              "voice/file_1.oga" sample_audio "ho sognato il mare"
              "Ho capito: _{text}_" "Ho capito: _ho sognato il mare_"
              bad_markdown eq_refl eq_refl eq_refl eq_refl eq_refl eq_refl
              eq_refl eq_refl eq_refl eq_refl).
Defined.

(** C5 at the text of the scenario. *)
Lemma text_is_wrapped_answered_and_footed_witness :
  generate_jungian_response env_ok format_plain sample_texts
    "Ho fatto un sogno strano" sample_update empty_world =
  (Ok tt,
   log_to empty_world
     [sample_call; EvReply 42 sample_full (Some "Markdown") None]) /\
  delivered
    (emitted
       (generate_jungian_response env_ok format_plain sample_texts
          "Ho fatto un sogno strano" sample_update) empty_world)
  = [sample_full].
Proof.
  apply (text_is_wrapped_answered_and_footed env_ok format_plain sample_texts
           "Ho fatto un sogno strano" sample_update empty_world
           "Sogno: {user_input}" "Sogno: Ho fatto un sogno strano"
           "Sei un analista junghiano." " [non sostituisce un terapeuta]"
           "Il mare e' l'inconscio." []);
    reflexivity.
Defined.

(** C6 at a run whose download fails. *)
Lemma audio_failure_is_answered_with_audio_error_witness :
  let run :=
    handle_voice_message env_download_fails format_plain sample_texts
      sample_dir sample_update in
  (run empty_world).1 = Ok tt /\
  delivered (emitted run empty_world) = ["Ascolto..."; "Audio non compreso."] /\
  Forall (fun ev => is_completion ev = false) (emitted run empty_world).
Proof.
  destruct (audio_failure_is_answered_with_audio_error env_download_fails
              format_plain sample_texts sample_dir sample_update empty_world
              "Ascolto..." "Audio non compreso." eq_refl eq_refl eq_refl)
    as [_ Hdownload].
  exact (Hdownload "voice/file_1.oga" (Some [Byte.x4f; Byte.x67])
           telegram_down eq_refl eq_refl eq_refl eq_refl).
Defined.

(** C7 refuted: the typing indicator fails, and the user gets no reply. *)
Lemma typing_indicator_failure_is_not_absorbed :
  handle_text_message env_typing_fails format_plain sample_texts sample_update
    empty_world =
  (Raise telegram_down,
   log_to empty_world [EvChatAction 42 "typing" (Some telegram_down)]).
Proof. vm_compute. reflexivity. Qed.

(** C8 refuted: a bundle without any key is loaded, and start-up goes on; the
    missing key shows when [/start] is handled. *)
Lemma startup_accepts_bundle_without_keys :
  bundle_lookup ∅ "messages" "welcome" = None /\
  module_init sample_dir (Some "123:abc") (Some "gsk_abc") (ResourceJson ∅)
    empty_world = (Ok ∅, empty_world) /\
  start_command env_ok ∅ sample_update empty_world =
  (Raise (KeyError "messages"), empty_world).
Proof. vm_compute. repeat split; reflexivity. Qed.

Lemma startup_does_not_check_bundle_keys_witness :
  (module_init sample_dir (Some "123:abc") (Some "gsk_abc") (ResourceJson ∅)
     empty_world).1 = Ok ∅ /\
  texts_get ∅ "messages" "welcome" empty_world =
  (Raise (KeyError "messages"), empty_world).
Proof.
  destruct (startup_does_not_check_bundle_keys ∅ sample_dir (Some "123:abc")
              (Some "gsk_abc") (ResourceJson ∅) empty_world) as [Hinit Hkey].
  split.
  - apply Hinit. repeat split; reflexivity.
  - exact (Hkey "messages" "welcome" empty_world eq_refl).
Defined.

(** C9 at a run in which every call succeeds. *)
Lemma voice_steps_run_in_sequence_witness :
  let evs :=
    emitted (handle_voice_message env_ok format_plain sample_texts sample_dir
               sample_update) empty_world in
  precedes (notice_delivered "Ascolto...") is_download evs /\
  precedes download_done is_transcription evs /\
  precedes transcription_done is_completion evs /\
  rich_after_completion sample_texts evs.
Proof.
  exact (voice_steps_run_in_sequence env_ok format_plain sample_texts
           sample_dir sample_update empty_world "Ascolto..." eq_refl).
Defined.

(** The trace of that run. *)
Example voice_update_trace :
  emitted (handle_voice_message env_ok format_plain sample_texts sample_dir
             sample_update) empty_world =
  [ EvReply 42 "Ascolto..." None None;
    EvGetFile "voice-1" (Ok "voice/file_1.oga");
    EvDownload "voice/file_1.oga" ["srv"; "bot"; "temp_voice.ogg"]
      (Some sample_audio) None;
    EvOpen ["srv"; "bot"; "temp_voice.ogg"] "rb";
    EvTranscribe "/srv/bot/temp_voice.ogg" sample_audio "whisper-large-v3"
      "it" "json" (Ok "ho sognato il mare");
    EvReply 42 "Ho capito: _ho sognato il mare_" (Some "Markdown") None;
    EvCompletion
      [ {| role := "system"; content := "Sei un analista junghiano." |};
        {| role := "user"; content := "Sogno: ho sognato il mare" |} ]
      "llama-3.3-70b-versatile" (Qmake 7 10)
      (Ok [Some "Il mare e' l'inconscio."]);
    EvReply 42 sample_full (Some "Markdown") None;
    EvRemove ["srv"; "bot"; "temp_voice.ogg"] ].
Proof. vm_compute. reflexivity. Qed.

(** ** Further properties on concrete inputs *)

Lemma completion_failure_is_answered_with_generic_error_witness :
  generate_jungian_response env_completion_down format_plain sample_texts
    (message_text sample_update) sample_update empty_world =
  (Ok tt,
   log_to empty_world
     [ sample_call_with (Raise groq_down);
       EvLog ERROR "LLM Generation Error: Connection error.";
       EvReply 42 "Errore." None None ]).
Proof.
  apply (completion_failure_is_answered_with_generic_error env_completion_down
           format_plain sample_texts (message_text sample_update)
           sample_update empty_world "Sogno: {user_input}"
           "Sogno: Ho fatto un sogno strano" "Sei un analista junghiano."
           "Errore." groq_down);
    reflexivity.
Defined.

Lemma empty_choice_list_is_answered_with_generic_error_witness :
  generate_jungian_response env_no_choices format_plain sample_texts
    (message_text sample_update) sample_update empty_world =
  (Ok tt,
   log_to empty_world
     [ sample_call_with (Ok []);
       EvLog ERROR "LLM Generation Error: list index out of range";
       EvReply 42 "Errore." None None ]).
Proof.
  apply (empty_choice_list_is_answered_with_generic_error env_no_choices
           format_plain sample_texts (message_text sample_update)
           sample_update empty_world "Sogno: {user_input}"
           "Sogno: Ho fatto un sogno strano" "Sei un analista junghiano."
           "Errore.");
    reflexivity.
Defined.

Lemma missing_content_is_sent_as_None_witness :
  generate_jungian_response env_null_content format_plain sample_texts
    (message_text sample_update) sample_update empty_world =
  (Ok tt,
   log_to empty_world
     [ sample_call_with (Ok [None]);
       EvReply 42 "None [non sostituisce un terapeuta]" (Some "Markdown")
         None ]).
Proof.
  apply (missing_content_is_sent_as_None env_null_content format_plain
           sample_texts (message_text sample_update) sample_update
           empty_world "Sogno: {user_input}"
           "Sogno: Ho fatto un sogno strano" "Sei un analista junghiano."
           " [non sostituisce un terapeuta]" []);
    reflexivity.
Defined.

Lemma missing_prompt_key_skips_completion_witness :
  let evs :=
    emitted (generate_jungian_response env_ok format_plain
               texts_without_prompts (message_text sample_update)
               sample_update) empty_world in
  Forall (fun ev => is_completion ev = false) evs /\
  (delivered evs = [] \/
   exists generic_error,
     bundle_lookup texts_without_prompts "errors" "generic_error"
     = Some generic_error /\
     delivered evs = [generic_error]).
Proof.
  apply (missing_prompt_key_skips_completion env_ok format_plain
           texts_without_prompts (message_text sample_update) sample_update
           empty_world).
  left. reflexivity.
Defined.

Lemma missing_footer_discards_answer_witness :
  generate_jungian_response env_ok format_plain texts_without_footer
    (message_text sample_update) sample_update empty_world =
  (Ok tt,
   log_to empty_world
     [ sample_call;
       EvLog ERROR "LLM Generation Error: 'footer_disclaimer'";
       EvReply 42 "Errore." None None ]).
Proof.
  apply (missing_footer_discards_answer env_ok format_plain
           texts_without_footer (message_text sample_update) sample_update
           empty_world "Sogno: {user_input}"
           "Sogno: Ho fatto un sogno strano" "Sei un analista junghiano."
           "Errore." (Some "Il mare e' l'inconscio.") []);
    reflexivity.
Defined.

Lemma cancelled_rich_send_is_not_retried_witness :
  generate_jungian_response env_cancelled format_plain sample_texts
    (message_text sample_update) sample_update empty_world =
  (Raise cancelled,
   log_to (log_to empty_world [sample_call])
     [EvReply 42 sample_full (Some "Markdown") (Some cancelled)]).
Proof.
  apply (cancelled_rich_send_is_not_retried env_cancelled format_plain
           sample_texts (message_text sample_update) sample_update
           empty_world (log_to empty_world [sample_call]) sample_full
           cancelled);
    reflexivity.
Defined.

Lemma missing_generic_error_key_raises_KeyError_witness :
  generate_jungian_response env_completion_down format_plain
    texts_without_errors (message_text sample_update) sample_update
    empty_world =
  (Raise (KeyError "errors"),
   log_to (log_to empty_world [sample_call_with (Raise groq_down)])
     [EvLog ERROR "LLM Generation Error: Connection error."]).
Proof.
  apply (missing_generic_error_key_raises_KeyError env_completion_down
           format_plain texts_without_errors (message_text sample_update)
           sample_update empty_world
           (log_to empty_world [sample_call_with (Raise groq_down)])
           groq_down);
    reflexivity.
Defined.

Lemma generation_error_in_voice_update_is_answered_with_audio_error_witness :
  handle_voice_message env_generation_unreachable format_plain sample_texts
    sample_dir sample_update empty_world =
  (Ok tt,
   {| w_fs := delete (temp_ogg_path sample_dir) (w_fs heard_world);
      w_trace := w_trace unanswered_world ++
                 [ EvLog ERROR "Audio Processing Error: timed out";
                   EvReply 42 "Audio non compreso." None None;
                   EvRemove (temp_ogg_path sample_dir) ] |}).
Proof.
  apply (generation_error_in_voice_update_is_answered_with_audio_error
           env_generation_unreachable format_plain sample_texts sample_dir
           sample_update empty_world heard_world unanswered_world
           "Ascolto..." "Audio non compreso." "ho sognato il mare"
           telegram_down);
    reflexivity.
Defined.

Lemma successful_voice_update_removes_file_last_witness :
  handle_voice_message env_ok format_plain sample_texts sample_dir
    sample_update empty_world =
  (Ok tt,
   {| w_fs := delete (temp_ogg_path sample_dir) (w_fs heard_world);
      w_trace := w_trace answered_world ++
                 [EvRemove (temp_ogg_path sample_dir)] |}).
Proof.
  apply (successful_voice_update_removes_file_last env_ok format_plain
           sample_texts sample_dir sample_update empty_world heard_world
           answered_world "Ascolto..." "ho sognato il mare");
    reflexivity.
Defined.

Lemma cancelled_voice_update_is_not_answered_witness :
  let run :=
    handle_voice_message env_cancelled format_plain sample_texts sample_dir
      sample_update in
  (run empty_world).1 = Raise cancelled /\
  exists removal,
    w_trace (run empty_world).2 =
    w_trace
      (log_to noticed_world
         [ EvGetFile "voice-1" (Ok "voice/file_1.oga");
           EvDownload "voice/file_1.oga" (temp_ogg_path sample_dir) None
             (Some cancelled) ]) ++ removal /\
    Forall (eq (EvRemove (temp_ogg_path sample_dir))) removal.
Proof.
  apply (cancelled_voice_update_is_not_answered env_cancelled format_plain
           sample_texts sample_dir sample_update empty_world
           (log_to noticed_world
              [ EvGetFile "voice-1" (Ok "voice/file_1.oga");
                EvDownload "voice/file_1.oga" (temp_ogg_path sample_dir) None
                  (Some cancelled) ])
           "Ascolto..." cancelled);
    reflexivity.
Defined.

Lemma transcription_receives_downloaded_bytes_witness :
  exists rest,
    emitted (download_and_transcribe env_ok format_plain sample_texts
               sample_dir sample_update) noticed_world =
    [ EvGetFile "voice-1" (Ok "voice/file_1.oga");
      EvDownload "voice/file_1.oga" (temp_ogg_path sample_dir)
        (Some sample_audio) None;
      EvOpen (temp_ogg_path sample_dir) "rb";
      EvTranscribe "/srv/bot/temp_voice.ogg" sample_audio "whisper-large-v3"
        "it" "json" (Ok "ho sognato il mare") ] ++ rest.
Proof.
  apply (transcription_receives_downloaded_bytes env_ok format_plain
           sample_texts sample_dir sample_update noticed_world
           "voice/file_1.oga" sample_audio);
    reflexivity.
Defined.

Lemma voice_update_that_returns_was_answered_witness :
  let run :=
    handle_voice_message env_ok format_plain sample_texts sample_dir
      sample_update in
  exists processing_audio rest,
    bundle_lookup sample_texts "messages" "processing_audio"
    = Some processing_audio /\
    delivered (emitted run empty_world) = processing_audio :: rest /\
    1 <= length rest <= 2.
Proof.
  apply (voice_update_that_returns_was_answered env_ok format_plain
           sample_texts sample_dir sample_update empty_world).
  reflexivity.
Defined.
